(** * OpenApiValidator: the API-gateway middleware of [src/index.js]

    A shallow embedding of the [OpenApiValidator] class: its constructor,
    the handler returned by [install], and the private methods
    [_validateRequests], [_validateResponses] and
    [_constructDefaultResponse].

    - JavaScript values are the type [value]; an object is the list of its
      own enumerable properties in the order [Object.keys] reports them
      (declaration order, for names that are not array indices).  Inherited
      properties and arrays are not modelled, and numbers are integers.
    - A computation either completes normally or throws a value
      ([completion]); the code of [install] runs in the monad [M], which
      threads the long-lived instance ([this]) and a log of the calls made
      to the functions that [install] does not define.  The event of an
      invocation is one object, shared by the parameter [event] and the
      field [this.event]: it lives in the field, and the handler returns
      it as it left it.
    - What a user supplies is typed: a transformer is a function or is
      absent, the handler answers with an array, and the completion
      callback of the platform records the envelope and does not throw.
      An invocation runs to its end before the next one starts.
    - The modules the file imports but that are not part of the sources
      ([./utils], [./errors], [./openApiRequestValidator],
      [./openApiResponseValidator]) are the fields of the class
      [Collaborators], or are modelled from the specification where a
      definition says so. *)

From Stdlib Require Import ZArith List String Ascii Bool Lia.
From Stdlib Require Import DecimalString.
Import ListNotations.
Set Warnings "-register-all".
Local Open Scope string_scope.
Local Open Scope Z_scope.

(** ** JavaScript values *)

Module Js.

Inductive value : Type :=
| VUndefined
| VNull
| VBool (b : bool)
| VNum (n : Z)
| VStr (s : string)
| VObj (props : list (string * value)).

(** Normal completion, or a thrown value. *)
Inductive completion (A : Type) : Type :=
| Normal (a : A)
| Throw (e : value).
Arguments Normal {A} a.
Arguments Throw {A} e.

(** [ToBoolean]. *)
Definition truthy (v : value) : bool :=
  match v with
  | VUndefined | VNull => false
  | VBool b => b
  | VNum n => negb (n =? 0)
  | VStr s => negb (String.eqb s "")
  | VObj _ => true
  end.

(** [a || b] and [a && b] on already evaluated operands. *)
Definition js_or (a b : value) : value := if truthy a then a else b.
Definition js_and (a b : value) : value := if truthy a then b else a.

(** [v == null]: the two values that have no properties to read. *)
Definition nullish (v : value) : bool :=
  match v with
  | VUndefined | VNull => true
  | _ => false
  end.

(** The engine's [TypeError]; only its [message] matters to the code. *)
Definition TypeError (message : string) : value :=
  VObj [("message", VStr message)].

Fixpoint lookup (k : string) (props : list (string * value)) : option value :=
  match props with
  | [] => None
  | (k', v) :: rest => if String.eqb k k' then Some v else lookup k rest
  end.

(** [o[k] = v] on the property list: an existing name keeps its place, a
    new name goes last. *)
Fixpoint update (k : string) (v : value) (props : list (string * value))
  : list (string * value) :=
  match props with
  | [] => [(k, v)]
  | (k', v') :: rest =>
      if String.eqb k k' then (k', v) :: rest else (k', v') :: update k v rest
  end.

(** [o[k]] where [o] is known not to be [null] or [undefined], among
    the own properties of [o]: this is the whole of [o[k]] for a name
    that [o] does not inherit (see [http_verb], [not_builtin_name] and
    [own_name] below). *)
Definition get (o : value) (k : string) : value :=
  match o with
  | VObj props => match lookup k props with Some v => v | None => VUndefined end
  | _ => VUndefined
  end.

(** [o[k]] or [o.k]: reading a property of [null] or [undefined] throws. *)
Definition member (o : value) (k : string) : completion value :=
  match o with
  | VUndefined | VNull => Throw (TypeError "Cannot read property of undefined or null")
  | _ => Normal (get o k)
  end.

(** [o[k] = v] in strict code (a class body is strict): it throws on a
    primitive receiver. *)
Definition set (o : value) (k : string) (v : value) : completion value :=
  match o with
  | VObj props => Normal (VObj (update k v props))
  | _ => Throw (TypeError "Cannot create property on a primitive")
  end.

(** [o.hasOwnProperty(k)]. *)
Definition hasOwnProperty (o : value) (k : string) : completion bool :=
  match o with
  | VUndefined | VNull => Throw (TypeError "Cannot read property of undefined or null")
  | VObj props => Normal (match lookup k props with Some _ => true | None => false end)
  | _ => Normal false
  end.

(** [Object.keys(o)] for an object; a primitive has no named own property
    (the indices of a string are not modelled). *)
Definition keys (o : value) : list string :=
  match o with
  | VObj props => map fst props
  | _ => []
  end.

(** [Object.assign(target, source)] for an object target. *)
Definition assign (target source : value) : value :=
  match target, source with
  | VObj tp, VObj sp =>
      VObj (fold_left (fun acc kv => update (fst kv) (snd kv) acc) sp tp)
  | _, _ => target
  end.

(** [ToString], as template literals and property keys apply it. *)
Definition toString (v : value) : string :=
  match v with
  | VUndefined => "undefined"
  | VNull => "null"
  | VBool true => "true"
  | VBool false => "false"
  | VNum n => NilZero.string_of_int (Z.to_int n)
  | VStr s => s
  | VObj _ => "[object Object]"
  end.

Definition lower_ascii (c : ascii) : ascii :=
  let n := nat_of_ascii c in
  if andb (Nat.leb 65 n) (Nat.leb n 90) then ascii_of_nat (n + 32) else c.

(** [String.prototype.toLowerCase] on the ASCII letters. *)
Fixpoint lower (s : string) : string :=
  match s with
  | EmptyString => EmptyString
  | String c rest => String (lower_ascii c) (lower rest)
  end.

(** [v.toLowerCase()]: only a string has the method. *)
Definition toLowerCase (v : value) : completion string :=
  match v with
  | VStr s => Normal (lower s)
  | VUndefined | VNull => Throw (TypeError "Cannot read property of undefined or null")
  | _ => Throw (TypeError "toLowerCase is not a function")
  end.

(** A total [o[k] = v], for a receiver known to be an object. *)
Definition put (o : value) (k : string) (v : value) : value :=
  match o with
  | VObj props => VObj (update k v props)
  | _ => o
  end.

(** lodash [get(object, path, defaultValue)] on a path already split into
    its segments: the walk stops at [null] or [undefined], and the default
    replaces an [undefined] result only. *)
Fixpoint baseGet (o : value) (path : list string) : value :=
  match path with
  | [] => o
  | k :: rest =>
      match o with
      | VUndefined | VNull => VUndefined
      | _ => baseGet (get o k) rest
      end
  end.

(** lodash [stringToPath] for a path written with dots only: the
    segments between the dots.  Bracket notation is not modelled, so a
    statement about a path that holds a variable part keeps brackets out
    of it (see [not_bracket] below). *)
Fixpoint stringToPath (acc : string) (s : string) : list string :=
  match s with
  | EmptyString => [acc]
  | String c rest =>
      if Ascii.eqb c "."%char then acc :: stringToPath "" rest
      else stringToPath (acc ++ String c EmptyString) rest
  end.

Definition lodash_get (o : value) (path : string) (defaultValue : value) : value :=
  match baseGet o (stringToPath "" path) with
  | VUndefined => defaultValue
  | v => v
  end.

(** [new Error(message)]. *)
Definition Error (message : string) : value :=
  VObj [("message", VStr message)].

End Js.
Import Js.

(** ** Regular expressions, as far as [install] builds them

    [RegExp.prototype.test] only asks whether some match exists, so a
    pattern without back-references denotes a set of strings and the test
    is membership, decided here with derivatives.  Characters are the code
    units below 256. *)

Module Regex.

Inductive regex : Type :=
| Void
| Eps
| Chr (c : ascii)
| Cls (ranges : list (nat * nat))
| Alt (r s : regex)
| Seq (r s : regex)
| Star (r : regex).

Definition in_ranges (ranges : list (nat * nat)) (c : ascii) : bool :=
  existsb (fun lh => andb (Nat.leb (fst lh) (nat_of_ascii c))
                          (Nat.leb (nat_of_ascii c) (snd lh))) ranges.

Fixpoint nullable (r : regex) : bool :=
  match r with
  | Void | Chr _ | Cls _ => false
  | Eps | Star _ => true
  | Alt r s => orb (nullable r) (nullable s)
  | Seq r s => andb (nullable r) (nullable s)
  end.

Fixpoint deriv (c : ascii) (r : regex) : regex :=
  match r with
  | Void | Eps => Void
  | Chr c' => if Ascii.eqb c c' then Eps else Void
  | Cls ranges => if in_ranges ranges c then Eps else Void
  | Alt r s => Alt (deriv c r) (deriv c s)
  | Seq r s =>
      if nullable r then Alt (Seq (deriv c r) s) (deriv c s)
      else Seq (deriv c r) s
  | Star r => Seq (deriv c r) (Star r)
  end.

(** The whole of [s] is in the language of [r]. *)
Fixpoint matches (r : regex) (s : string) : bool :=
  match s with
  | EmptyString => nullable r
  | String c rest => matches (deriv c r) rest
  end.

(** The strings of a pattern, as a relation: what [matches] decides. *)
Inductive Matches : regex -> string -> Prop :=
| MEps : Matches Eps EmptyString
| MChr (c : ascii) : Matches (Chr c) (String c EmptyString)
| MCls (ranges : list (nat * nat)) (c : ascii) :
    in_ranges ranges c = true -> Matches (Cls ranges) (String c EmptyString)
| MAltL (r s : regex) (w : string) : Matches r w -> Matches (Alt r s) w
| MAltR (r s : regex) (w : string) : Matches s w -> Matches (Alt r s) w
| MSeq (r s : regex) (w1 w2 : string) :
    Matches r w1 -> Matches s w2 -> Matches (Seq r s) (w1 ++ w2)
| MStarEmpty (r : regex) : Matches (Star r) EmptyString
| MStarStep (r : regex) (w1 w2 : string) :
    Matches r w1 -> Matches (Star r) w2 -> Matches (Star r) (w1 ++ w2).

Definition Plus (r : regex) : regex := Seq r (Star r).

Definition anychar : regex := Cls [(0, 255)%nat].

(** [RegExp(source + '$').test(s)] for a [source] without [^]: the match
    may start anywhere and must reach the end of [s]. *)
Definition test (r : regex) (s : string) : bool :=
  matches (Seq (Star anychar) r) s.

(** The class [[a-zA-z0-9-\s\+]]: the ranges a-z, A-z (upper-case A to
    lower-case z, as written in the source), 0-9, the hyphen, the white
    space of [\s] and the plus sign. *)
Definition var_class : list (nat * nat) :=
  [(97, 122); (65, 122); (48, 57); (45, 45);
   (9, 13); (32, 32); (160, 160); (43, 43)]%nat.

(** [([a-zA-z0-9-\s\+]|%20)+], the replacement for a [{var}] segment. *)
Definition var_segment : regex :=
  Plus (Alt (Cls var_class) (Seq (Chr "%") (Seq (Chr "2") (Chr "0")))).

Fixpoint closes (s : string) : bool :=
  match s with
  | EmptyString => false
  | String c rest => if Ascii.eqb c "}"%char then true else closes rest
  end.

(** [key.replace(/{[^}]*}/g, '([a-zA-z0-9-\\s\\+]|%20)+')] read as a
    pattern: an opening brace that is closed later starts a variable
    segment, which runs to the first closing brace; every other character
    stands for itself.  ([inside] is true while a segment is skipped;
    [segment] is the pattern put in its place.)
    The characters of a template outside its braces are taken literally:
    a template that uses a pattern operator there (a dot, a star, ...) is
    read by [RegExp] as a pattern and is outside this definition. *)
Fixpoint template_with (segment : regex) (inside : bool) (key : string) : regex :=
  match key with
  | EmptyString => Eps
  | String c rest =>
      if inside then
        if Ascii.eqb c "}"%char then template_with segment false rest
        else template_with segment true rest
      else if andb (Ascii.eqb c "{"%char) (closes rest)
           then Seq segment (template_with segment true rest)
           else Seq (Chr c) (template_with segment false rest)
  end.

Definition template (key : string) : regex :=
  template_with var_segment false key.

(** [RegExp(key.replace(...) + '$').test(path)]. *)
Definition template_test (key path : string) : bool :=
  test (template key) path.

(** The character class as the specification words it: alphanumerics,
    hyphen, white space and the plus sign. *)
Definition spec_var_class : list (nat * nat) :=
  [(97, 122); (65, 90); (48, 57); (45, 45);
   (9, 13); (32, 32); (160, 160); (43, 43)]%nat.

Definition spec_var_segment : regex :=
  Plus (Alt (Cls spec_var_class) (Seq (Chr "%") (Seq (Chr "2") (Chr "0")))).

(** The match of a path against a template as the specification words it. *)
Definition spec_template_test (key path : string) : bool :=
  test (template_with spec_var_segment false key) path.

End Regex.
Import Regex.

(** ** Collaborators that are not part of the sources *)

(** The request composite that [_validateRequests] hands to the request
    validator: [{body, query, headers, params}]. *)
Record request : Type := mkRequest {
  body : value;
  query : value;
  headers : value;
  params : value
}.

Class Collaborators : Type := {
  (** [isJson] of [./utils]. *)
  isJson : value -> bool;
  (** [JSON.parse], which throws on malformed text. *)
  JSON_parse : value -> completion value;
  (** [JSON.stringify]. *)
  JSON_stringify : value -> value;
  (** [TYPE_JSON] of [./constants]. *)
  TYPE_JSON : value;
  (** [ToNumber] on a string; [None] is NaN. *)
  StringToNumber : string -> option Z;
  (** The verdict of the request validation engine on
      [(apiSpec, AJVoptions, schema, path, request)]: the description of
      the violations, or the sanitized request. *)
  request_check : value -> value -> value -> value -> request -> value + request;
  (** [new ResponseValidator(apiSpec, AJVoptions, schema, role)
        .validate(path, response, statusCode)]: the sanitized response,
      or the fault it throws. *)
  ResponseValidator_validate :
    value -> value -> value -> value -> value -> value -> value -> completion value
}.

Section Model.

Context {collaborators : Collaborators}.

(** Modelled from the spec: [./errors] is not part of the sources.  A
    [ValidationError] built with [new] is a fault that carries the given
    message and HTTP status code. *)
Definition ValidationError (message statusCode : value) : value :=
  VObj [("message", message); ("statusCode", statusCode)].

(** [ValidationError(message)] without [new] (line 115).  The sources
    build every other fault with [new ValidationError], so the name is a
    class, and calling a class throws the engine's [TypeError]. *)
Definition ValidationError_call (message : value) : completion value :=
  Throw (TypeError "Class constructor ValidationError cannot be invoked without 'new'").

(** Modelled from the spec: [./openApiRequestValidator] is not part of the
    sources.  [new RequestValidator(apiSpec, AJVoptions, schema)
    .validate(path, request)] leaves the sanitized data in [request], or
    fails with a RequestValidationError, an HTTP 400 fault that carries
    the violations; a failed validation leaves [request] as it was. *)
Definition RequestValidator_validate
  (apiSpec AJVoptions schema path : value) (r : request) : completion request :=
  match request_check apiSpec AJVoptions schema path r with
  | inl violations => Throw (ValidationError violations (VNum 400))
  | inr sanitized => Normal sanitized
  end.

(** [ToNumber]; a plain object is NaN (one that overrides [valueOf] is
    not modelled). *)
Definition ToNumber (v : value) : option Z :=
  match v with
  | VUndefined => None
  | VNull => Some 0
  | VBool b => Some (if b then 1 else 0)
  | VNum n => Some n
  | VStr s => StringToNumber s
  | VObj _ => None
  end.

(** [a < b] and [a >= b] with a number on the right; both are false
    when the left operand is NaN. *)
Definition lt (a : value) (b : Z) : bool :=
  match ToNumber a with Some n => n <? b | None => false end.
Definition ge (a : value) (b : Z) : bool :=
  match ToNumber a with Some n => b <=? n | None => false end.

End Model.

(** ** The instance and the monad of [install] *)

(** The functions a user supplies.  A transformer may throw; the wrapped
    handler receives the event object itself, so it returns the event as
    it left it together with its completion, the awaited array
    [[response, statusCode, message]]. *)
Definition transformer : Type := value -> completion value.
Definition successTransformer : Type := value -> value -> completion value.
Definition errorTransformer : Type := value -> value -> value -> completion value.
Definition handler : Type := value -> value -> value * completion (list value).

(** The [params] object of the constructor. *)
Module Params.
Record t : Type := mk {
  apiSpec : value;
  contentType : value;
  validateSpec : value;
  validateRequests : value;
  validateResponses : value;
  requestBodyTransformer : option transformer;
  requestPathTransformer : option transformer;
  requestQueryTransformer : option transformer;
  responseSuccessTransformer : option successTransformer;
  responseErrorTransformer : option errorTransformer;
  removeAdditionalRequestProps : value;
  removeAdditionalResponseProps : value;
  roleAuthorizerKey : value;
  filterByRole : value;
  defaultRoleName : value;
  AJVoptions : value
}.
End Params.

(** The fields of an [OpenApiValidator] instance.  [event] does not exist
    until the first invocation assigns it (line 41); it reads as
    [undefined] before. *)
Record validator : Type := mkValidator {
  apiSpec : value;
  contentType : value;
  validateSpec : value;
  validateRequests : value;
  validateResponses : value;
  requestBodyTransformer : option transformer;
  requestPathTransformer : option transformer;
  requestQueryTransformer : option transformer;
  responseSuccessTransformer : option successTransformer;
  responseErrorTransformer : option errorTransformer;
  removeAdditionalRequestProps : value;
  removeAdditionalResponseProps : value;
  roleAuthorizerKey : value;
  filterByRole : value;
  defaultRoleName : value;
  AJVoptions : value;
  config : value;
  lambdaBody : handler;
  event : value
}.

Definition set_event (v : value) (o : validator) : validator :=
  mkValidator (apiSpec o) (contentType o) (validateSpec o) (validateRequests o)
    (validateResponses o) (requestBodyTransformer o) (requestPathTransformer o)
    (requestQueryTransformer o) (responseSuccessTransformer o)
    (responseErrorTransformer o) (removeAdditionalRequestProps o)
    (removeAdditionalResponseProps o) (roleAuthorizerKey o) (filterByRole o)
    (defaultRoleName o) (AJVoptions o) (config o) (lambdaBody o) v.

Definition set_config (v : value) (o : validator) : validator :=
  mkValidator (apiSpec o) (contentType o) (validateSpec o) (validateRequests o)
    (validateResponses o) (requestBodyTransformer o) (requestPathTransformer o)
    (requestQueryTransformer o) (responseSuccessTransformer o)
    (responseErrorTransformer o) (removeAdditionalRequestProps o)
    (removeAdditionalResponseProps o) (roleAuthorizerKey o) (filterByRole o)
    (defaultRoleName o) (AJVoptions o) v (lambdaBody o) (event o).

Definition set_AJVoptions (v : value) (o : validator) : validator :=
  mkValidator (apiSpec o) (contentType o) (validateSpec o) (validateRequests o)
    (validateResponses o) (requestBodyTransformer o) (requestPathTransformer o)
    (requestQueryTransformer o) (responseSuccessTransformer o)
    (responseErrorTransformer o) (removeAdditionalRequestProps o)
    (removeAdditionalResponseProps o) (roleAuthorizerKey o) (filterByRole o)
    (defaultRoleName o) v (config o) (lambdaBody o) (event o).

(** The calls [install] makes to functions it does not define. *)
Inductive call : Type :=
| CallRequestValidator (path : value) (r : request)
| CallRequestBodyTransformer (arg : value)
| CallRequestPathTransformer (arg : value)
| CallRequestQueryTransformer (arg : value)
| CallLambdaBody (ev context : value)
| CallResponseSuccessTransformer (response statusCode : value)
| CallResponseErrorTransformer (response statusCode message : value)
| CallResponseValidator (path response schema statusCode role : value)
| CallCallback (response : value).

(** What a computation of [install] can touch: the instance and the log
    of calls made so far. *)
Record state : Type := mkState {
  this : validator;
  calls : list call
}.

Definition M (A : Type) : Type := state -> completion A * state.

Definition ret {A : Type} (a : A) : M A := fun s => (Normal a, s).

Definition bind {A B : Type} (m : M A) (f : A -> M B) : M B :=
  fun s =>
    match m s with
    | (Normal a, s') => f a s'
    | (Throw e, s') => (Throw e, s')
    end.

Definition throw {A : Type} (e : value) : M A := fun s => (Throw e, s).

Definition lift {A : Type} (c : completion A) : M A := fun s => (c, s).

(** [try { m } catch (error) { h error }]: the handler runs in the state
    the body left behind. *)
Definition try_catch {A : Type} (m : M A) (h : value -> M A) : M A :=
  fun s =>
    match m s with
    | (Normal a, s') => (Normal a, s')
    | (Throw e, s') => h e s'
    end.

Definition read : M validator := fun s => (Normal (this s), s).

Definition write (f : validator -> validator) : M unit :=
  fun s => (Normal tt, mkState (f (this s)) (calls s)).

Definition emit (c : call) : M unit :=
  fun s => (Normal tt, mkState (this s) (calls s ++ [c])).

Declare Scope js_scope.
Delimit Scope js_scope with js.
Notation "x <- m ;; k" := (bind m (fun x => k))
  (at level 61, m at next level, right associativity) : js_scope.
Notation "m ;; k" := (bind m (fun _ => k))
  (at level 61, right associativity) : js_scope.

(** ** The class [OpenApiValidator] *)

Section OpenApiValidator.

Context {collaborators : Collaborators}.
Local Open Scope js_scope.

(** [constructor(params, lambdaBody)], lines 11-33. *)
Definition constructor (params : Params.t) (lambdaBody : handler)
  : completion validator :=
  if orb (negb (truthy (Params.apiSpec params)))
         (negb (isJson (Params.apiSpec params)))
  then Throw (Error "API spec not found or invalid")
  else Normal {|
    apiSpec := Params.apiSpec params;
    contentType := js_or (Params.contentType params) TYPE_JSON;
    validateSpec := js_or (Params.validateSpec params) (VBool true);
    validateRequests := js_or (Params.validateRequests params) (VBool false);
    validateResponses := js_or (Params.validateResponses params) (VBool false);
    requestBodyTransformer := Params.requestBodyTransformer params;
    requestPathTransformer := Params.requestPathTransformer params;
    requestQueryTransformer := Params.requestQueryTransformer params;
    responseSuccessTransformer := Params.responseSuccessTransformer params;
    responseErrorTransformer := Params.responseErrorTransformer params;
    removeAdditionalRequestProps :=
      js_or (Params.removeAdditionalRequestProps params) (VBool false);
    removeAdditionalResponseProps :=
      js_or (Params.removeAdditionalResponseProps params) (VBool false);
    roleAuthorizerKey := js_or (Params.roleAuthorizerKey params) VNull;
    filterByRole := js_or (Params.filterByRole params) (VBool false);
    defaultRoleName := js_or (Params.defaultRoleName params) (VStr "default");
    AJVoptions := js_or (Params.AJVoptions params) (VObj []);
    config := VObj [];
    lambdaBody := lambdaBody;
    event := VUndefined
  |}.

(** [_constructDefaultResponse(response, statusCode)], lines 210-216. *)
Definition _constructDefaultResponse (response statusCode : value) : value :=
  let body := if isJson response then JSON_stringify response else response in
  VObj [("body", body); ("statusCode", statusCode)].

(** The first [forEach] of [_validateRequests] (lines 177-179), one key:
    [request.headers[key.toLowerCase()] = event.headers[key]].  The two
    header objects are the same object whenever the loop has a key to
    visit, so the read is from the object being written. *)
Definition lower_copy (h : value) (key : string) : value :=
  put h (lower key) (get h key).

(** The whole loop over [Object.keys(event.headers || {})], whose keys
    are listed before the first write. *)
Definition lower_copies (h : value) : value :=
  fold_left lower_copy (keys h) h.

(** The second [forEach] (lines 191-193), one key:
    [if (request.headers[key.toLowerCase()])
       filtered.headers[key] = request.headers[key.toLowerCase()]];
    [filtered.headers] is [request.headers]. *)
Definition restore_case (h : completion value) (key : string) : completion value :=
  match h with
  | Throw e => Throw e
  | Normal h =>
      match member h (lower key) with
      | Throw e => Throw e
      | Normal v => if truthy v then set h key v else Normal h
      end
  end.

(** The whole second loop, over the names in [names]. *)
Definition restore_cases (names : list string) (h : value) : completion value :=
  fold_left restore_case names (Normal h).

(** [_validateRequests(path, event, schema, AJVoptions)], lines 164-197,
    called with [this.event] and [this.AJVoptions]: the writes to
    [AJVoptions] and to the headers object of the event are writes to the
    instance's objects. *)
Definition _validateRequests (path schema : value) : M value :=
  if truthy schema then
    o <- read ;;
    opts <- lift (set (AJVoptions o) "removeAdditional" (removeAdditionalRequestProps o)) ;;
    write (set_AJVoptions opts) ;;
    ev_body <- lift (member (event o) "body") ;;
    ev_query <- lift (member (event o) "queryStringParameters") ;;
    ev_headers <- lift (member (event o) "headers") ;;
    ev_params <- lift (member (event o) "pathParameters") ;;
    let hdrs := lower_copies (js_or ev_headers (VObj [])) in
    (* the object [request.headers] is [event.headers] when that is truthy *)
    let ev' := if truthy ev_headers then put (event o) "headers" hdrs else event o in
    write (set_event ev') ;;
    let r := {| body := js_or ev_body (VObj []);
                query := js_or ev_query (VObj []);
                headers := hdrs;
                params := js_or ev_params (VObj []) |} in
    emit (CallRequestValidator path r) ;;
    r' <- lift (RequestValidator_validate (apiSpec o) opts schema path r) ;;
    filtered_headers <-
      lift (restore_cases (keys (js_or (get ev' "headers") (VObj []))) (headers r')) ;;
    ret (VObj [("body", body r');
               ("queryStringParams", query r');
               ("headers", filtered_headers);
               ("pathParameters", params r')])
  else ret VUndefined.

(** [_validateResponses(path, response, schema, statusCode, AJVoptions,
    role = null)], lines 199-208, called with [this.AJVoptions]. *)
Definition _validateResponses (path response schema statusCode role : value)
  : M value :=
  let role := match role with VUndefined => VNull | _ => role end in
  if truthy schema then
    o <- read ;;
    opts <- lift (set (AJVoptions o) "removeAdditional" (removeAdditionalResponseProps o)) ;;
    write (set_AJVoptions opts) ;;
    emit (CallResponseValidator path response schema statusCode role) ;;
    lift (ResponseValidator_validate (apiSpec o) opts schema role path response statusCode)
  else ret response.

(** The callback of [find] on line 60-63, tried on the keys in order:
    [regex.test(path) && paths[key][httpMethodLower]]. *)
Fixpoint find_key (paths : value) (path httpMethodLower : string)
  (pathKeys : list string) : completion value :=
  match pathKeys with
  | [] => Normal VUndefined
  | key :: rest =>
      if template_test key path then
        match member (get paths key) httpMethodLower with
        | Throw e => Throw e
        | Normal operation =>
            if truthy operation then Normal (VStr key)
            else find_key paths path httpMethodLower rest
        end
      else find_key paths path httpMethodLower rest
  end.

(** Lines 54-70: the value assigned to [this.config], or the fault. *)
Definition resolve (paths path : value) (httpMethodLower : string)
  : completion value :=
  match member paths (toString path) with
  | Throw e => Throw e
  | Normal exact =>
      if truthy (js_and exact (get exact httpMethodLower))
      then Normal (get exact httpMethodLower)
      else
        match find_key paths (toString path) httpMethodLower (keys paths) with
        | Throw e => Throw e
        | Normal foundKey =>
            if truthy foundKey
            then Normal (get (get paths (toString foundKey)) httpMethodLower)
            else Throw (ValidationError
                          (VStr ("The path " ++ toString path
                                 ++ " could not be found with http method "
                                 ++ httpMethodLower ++ " in the API spec"))
                          (VNum 400))
        end
  end.

(** Line 134: [get(event, `requestContext.authorizer.claims.${key}`,
    event.requestContext.authorizer.claims[this.defaultRoleName])].  The
    third argument is evaluated before [get] runs. *)
Definition resolve_role (ev roleAuthorizerKey defaultRoleName : value)
  : completion value :=
  match member ev "requestContext" with
  | Throw e => Throw e
  | Normal requestContext =>
      match member requestContext "authorizer" with
      | Throw e => Throw e
      | Normal authorizer =>
          match member authorizer "claims" with
          | Throw e => Throw e
          | Normal claims =>
              match member claims (toString defaultRoleName) with
              | Throw e => Throw e
              | Normal defaultValue =>
                  Normal (lodash_get ev
                            ("requestContext.authorizer.claims."
                             ++ toString roleAuthorizerKey)
                            defaultValue)
              end
          end
      end
  end.

(** Lines 143-147 and 154-158: [callback(null, response)] when a callback
    was passed, [return response] otherwise. *)
Definition deliver (callback : bool) (response : value) : M value :=
  if callback then emit (CallCallback response) ;; ret VUndefined
  else ret response.

(** Lines 100-111: the response transform selected by the status class. *)
Definition transform_response (response statusCode message : value) : M value :=
  o <- read ;;
  if lt statusCode 300 then
    match responseSuccessTransformer o with
    | Some f =>
        emit (CallResponseSuccessTransformer response statusCode) ;;
        lift (f response statusCode)
    | None => ret (_constructDefaultResponse response statusCode)
    end
  else
    match responseErrorTransformer o with
    | Some g =>
        emit (CallResponseErrorTransformer response statusCode message) ;;
        lift (g response statusCode message)
    | None => throw (ValidationError message statusCode)
    end.

(** Lines 113-116: the envelope-shape check. *)
Definition check_envelope (response : value) : M unit :=
  has_body <- lift (hasOwnProperty response "body") ;;
  has_status <- lift (hasOwnProperty response "statusCode") ;;
  if orb (negb has_body) (negb has_status) then
    e <- lift (ValidationError_call (VStr "Response must contain a body and statusCode")) ;;
    throw e
  else ret tt.

(** Lines 118-141: response validation and role-based filtering. *)
Definition filter_response (path response statusCode : value) : M value :=
  let responseBody := get response "body" in
  converted <- (if isJson responseBody
                then parsed <- lift (JSON_parse responseBody) ;; ret (parsed, true)
                else ret (responseBody, false)) ;;
  let responseToValidate := fst converted in
  o <- read ;;
  if orb (truthy (validateResponses o)) (truthy (filterByRole o)) then
    filteredResponse <-
      (if andb (truthy (filterByRole o)) (truthy (roleAuthorizerKey o)) then
         role <- lift (resolve_role (event o) (roleAuthorizerKey o) (defaultRoleName o)) ;;
         _validateResponses path responseToValidate (config o) statusCode role
       else
         _validateResponses path responseToValidate (config o) statusCode VUndefined) ;;
    ret (assign response
           (VObj [("body", if snd converted then JSON_stringify filteredResponse
                           else filteredResponse)]))
  else ret response.

(** Lines 38-40: a body that is JSON text is replaced by its parse. *)
Definition parse_body (ev : value) : completion value :=
  match member ev "body" with
  | Throw e => Throw e
  | Normal ev_body =>
      if isJson ev_body then
        match JSON_parse ev_body with
        | Throw e => Throw e
        | Normal parsed => set ev "body" parsed
        end
      else Normal ev
  end.

(** Lines 53-72: route resolution, when a validation is enabled. *)
Definition route (paths path : value) (httpMethodLower : string) : M unit :=
  o <- read ;;
  if orb (truthy (validateRequests o)) (truthy (validateResponses o)) then
    operation <- lift (resolve paths path httpMethodLower) ;;
    write (set_config operation)
  else ret tt.

(** Lines 74-80: request validation, when it is enabled. *)
Definition sanitize (path : value) : M unit :=
  o <- read ;;
  if truthy (validateRequests o) then
    filteredRequest <- _validateRequests path (config o) ;;
    o <- read ;;
    write (set_event (assign (event o) filteredRequest))
  else ret tt.

(** Lines 81-93: the request transformers, each on the value destructured
    from the event on lines 44-50. *)
Definition transform_request (body pathParameters queryStringParameters : value)
  : M unit :=
  o <- read ;;
  match requestBodyTransformer o with
  | Some f =>
      emit (CallRequestBodyTransformer (js_or body (VObj []))) ;;
      transformedBody <- lift (f (js_or body (VObj []))) ;;
      o <- read ;;
      ev <- lift (set (event o) "body" transformedBody) ;;
      write (set_event ev)
  | None => ret tt
  end ;;
  match requestPathTransformer o with
  | Some f =>
      emit (CallRequestPathTransformer (js_or pathParameters (VObj []))) ;;
      transformedPath <- lift (f (js_or pathParameters (VObj []))) ;;
      o <- read ;;
      ev <- lift (set (event o) "pathParameters" transformedPath) ;;
      write (set_event ev)
  | None => ret tt
  end ;;
  match requestQueryTransformer o with
  | Some f =>
      emit (CallRequestQueryTransformer (js_or queryStringParameters (VObj []))) ;;
      transformedQuery <- lift (f (js_or queryStringParameters (VObj []))) ;;
      o <- read ;;
      ev <- lift (set (event o) "queryStringParameters" transformedQuery) ;;
      write (set_event ev)
  | None => ret tt
  end.

(** Line 95: [await this.lambdaBody(event, context, callback)]. *)
Definition call_handler (context : value) : M (list value) :=
  o <- read ;;
  emit (CallLambdaBody (event o) context) ;;
  write (set_event (fst (lambdaBody o (event o) context))) ;;
  lift (snd (lambdaBody o (event o) context)).

(** Lines 38-93: everything before the wrapped handler is called; the
    result is the [path] destructured on line 47. *)
Definition request_stage (ev : value) : M value :=
  ev <- lift (parse_body ev) ;;
  write (set_event ev) ;;
  o <- read ;;
  paths <- lift (member (apiSpec o) "paths") ;;
  let body := get ev "body" in
  let httpMethod := get ev "httpMethod" in
  let path := get ev "path" in
  let pathParameters := get ev "pathParameters" in
  let queryStringParameters := get ev "queryStringParameters" in
  httpMethodLower <- lift (toLowerCase httpMethod) ;;
  route paths path httpMethodLower ;;
  sanitize path ;;
  transform_request body pathParameters queryStringParameters ;;
  ret path.

(** Lines 95-111: the handler and the response transform; the result is
    the [response] checked on line 114 and the handler's [statusCode]. *)
Definition handler_stage (context : value) : M (value * value) :=
  lambdaResponse <- call_handler context ;;
  let response := nth 0 lambdaResponse VUndefined in
  let statusCode := nth 1 lambdaResponse VUndefined in
  let message := match nth 2 lambdaResponse VUndefined with
                 | VUndefined => VStr ""
                 | m => m
                 end in
  response <- transform_response response statusCode message ;;
  ret (response, statusCode).

(** Lines 113-147: the envelope check, the response filter, the hand-over. *)
Definition response_stage (path response statusCode : value) (callback : bool)
  : M value :=
  check_envelope response ;;
  response <- filter_response path response statusCode ;;
  deliver callback response.

(** The [try] block of the handler that [install] returns, lines 38-147. *)
Definition try_block (ev context : value) (callback : bool) : M value :=
  path <- request_stage ev ;;
  produced <- handler_stage context ;;
  response_stage path (fst produced) (snd produced) callback.

(** The [catch] block, lines 148-159. *)
Definition catch_block (callback : bool) (error : value) : M value :=
  message <- lift (member error "message") ;;
  let body := JSON_stringify (VObj [("message", message)]) in
  statusCode <- lift (member error "statusCode") ;;
  deliver callback (VObj [("body", body);
                          ("statusCode", js_or statusCode (VNum 500))]).

(** [install()], lines 35-162: the handler
    [async (event, context, callback) => ...].  A [Throw] completion is a
    rejected promise: a fault that reaches the caller. *)
Definition install (ev context : value) (callback : bool) : M value :=
  try_catch (try_block ev context callback) (catch_block callback).

(** One invocation on the instance [o], starting from an empty log. *)
Definition invoke (o : validator) (ev context : value) (callback : bool)
  : completion value * state :=
  install ev context callback (mkState o []).

(** The envelope an invocation hands over, by callback or by return. *)
Definition delivered (callback : bool) (r : completion value * state)
  : option value :=
  match fst r with
  | Throw _ => None
  | Normal v =>
      if callback then
        match rev (calls (snd r)) with
        | CallCallback response :: _ => Some response
        | _ => None
        end
      else Some v
  end.

End OpenApiValidator.

(** ** An engine to run the model on concrete inputs *)

Module Demo.

Definition quote (s : string) : string :=
  String (ascii_of_nat 34) (s ++ String (ascii_of_nat 34) EmptyString).

(** [JSON.stringify] on the values of the model (no escapes inside
    strings); [None] is [undefined]. *)
Fixpoint stringify (v : value) : option string :=
  match v with
  | VUndefined => None
  | VNull => Some "null"
  | VBool b => Some (toString (VBool b))
  | VNum n => Some (toString (VNum n))
  | VStr s => Some (quote s)
  | VObj props =>
      let fix members (ps : list (string * value)) : list string :=
        match ps with
        | [] => []
        | (k, x) :: rest =>
            match stringify x with
            | Some t => (quote k ++ ":" ++ t) :: members rest
            | None => members rest
            end
        end in
      Some ("{" ++ String.concat "," (members props) ++ "}")
  end.

Definition stringify_value (v : value) : value :=
  match stringify v with Some s => VStr s | None => VUndefined end.

(** The JSON texts an example uses, each with the value it parses to. *)
Definition texts : Type := list (string * value).

Definition is_json (t : texts) (v : value) : bool :=
  match v with
  | VObj _ => true
  | VStr s => match lookup s t with Some _ => true | None => false end
  | _ => false
  end.

Definition parse (t : texts) (v : value) : completion value :=
  match lookup (toString v) t with
  | Some x => Normal x
  | None => Throw (VObj [("message", VStr "Unexpected token in JSON")])
  end.

(** An engine whose request validator is [check] and whose response
    validator accepts every response unchanged. *)
Definition engine (t : texts) (check : request -> value + request)
  : Collaborators := {|
  isJson := is_json t;
  JSON_parse := parse t;
  JSON_stringify := stringify_value;
  TYPE_JSON := VStr "application/json";
  StringToNumber := fun _ => None;
  request_check := fun _ _ _ _ r => check r;
  ResponseValidator_validate := fun _ _ _ _ _ response _ => Normal response
|}.

(** A request validator that accepts every request unchanged, and one
    that rejects every request. *)
Definition accept (r : request) : value + request := inr r.
Definition reject (r : request) : value + request := inl (VStr "invalid request").

Definition no_params (spec : value) : Params.t := {|
  Params.apiSpec := spec;
  Params.contentType := VUndefined;
  Params.validateSpec := VUndefined;
  Params.validateRequests := VUndefined;
  Params.validateResponses := VUndefined;
  Params.requestBodyTransformer := None;
  Params.requestPathTransformer := None;
  Params.requestQueryTransformer := None;
  Params.responseSuccessTransformer := None;
  Params.responseErrorTransformer := None;
  Params.removeAdditionalRequestProps := VUndefined;
  Params.removeAdditionalResponseProps := VUndefined;
  Params.roleAuthorizerKey := VUndefined;
  Params.filterByRole := VUndefined;
  Params.defaultRoleName := VUndefined;
  Params.AJVoptions := VUndefined
|}.

(** A specification with the routes [GET /pet/{id}] and [POST /pet]. *)
Definition petstore : value :=
  VObj [("paths",
         VObj [("/pet/{id}", VObj [("get", VObj [("operationId", VStr "getPet")])]);
               ("/pet", VObj [("post", VObj [("operationId", VStr "addPet")])])])].

(** A handler that answers [[{id: 1}, 200]] and leaves the event alone. *)
Definition ok_handler : handler :=
  fun ev _ => (ev, Normal [VObj [("id", VNum 1)]; VNum 200]).

(** A handler that throws [fault]. *)
Definition failing_handler (fault : value) : handler :=
  fun ev _ => (ev, Throw fault).

(** A handler that answers [[{}, 404, "no such pet"]]. *)
Definition not_found_handler : handler :=
  fun ev _ => (ev, Normal [VObj []; VNum 404; VStr "no such pet"]).

(** A request validator that wants the header [x-role] to be [admin]. *)
Definition require_role (r : request) : value + request :=
  match get (headers r) "x-role" with
  | VStr "admin" => inr r
  | _ => inl (VStr "x-role must be admin")
  end.

Definition paths : value := get petstore "paths".

(** The instance that the constructor builds for the petstore from the
    options [validateRequests], [filterByRole], [roleAuthorizerKey] and
    [responseSuccessTransformer]. *)
Definition params (validate byRole roleKey : value)
  (success : option successTransformer) : Params.t := {|
  Params.apiSpec := petstore;
  Params.contentType := VUndefined;
  Params.validateSpec := VUndefined;
  Params.validateRequests := validate;
  Params.validateResponses := VUndefined;
  Params.requestBodyTransformer := None;
  Params.requestPathTransformer := None;
  Params.requestQueryTransformer := None;
  Params.responseSuccessTransformer := success;
  Params.responseErrorTransformer := None;
  Params.removeAdditionalRequestProps := VUndefined;
  Params.removeAdditionalResponseProps := VUndefined;
  Params.roleAuthorizerKey := roleKey;
  Params.filterByRole := byRole;
  Params.defaultRoleName := VUndefined;
  Params.AJVoptions := VUndefined
|}.

Definition instance (validate byRole roleKey : value)
  (success : option successTransformer) (h : handler) : validator := {|
  apiSpec := petstore;
  contentType := VStr "application/json";
  validateSpec := VBool true;
  validateRequests := js_or validate (VBool false);
  validateResponses := VBool false;
  requestBodyTransformer := None;
  requestPathTransformer := None;
  requestQueryTransformer := None;
  responseSuccessTransformer := success;
  responseErrorTransformer := None;
  removeAdditionalRequestProps := VBool false;
  removeAdditionalResponseProps := VBool false;
  roleAuthorizerKey := js_or roleKey VNull;
  filterByRole := js_or byRole (VBool false);
  defaultRoleName := VStr "default";
  AJVoptions := VObj [];
  config := VObj [];
  lambdaBody := h;
  event := VUndefined
|}.

(** The instance with every option left out, and the one that validates
    requests. *)
Definition plain (h : handler) : validator :=
  instance VUndefined VUndefined VUndefined None h.
Definition validating (h : handler) : validator :=
  instance (VBool true) VUndefined VUndefined None h.

(** [GET path] with the header [X-Role: admin] and no role claim. *)
Definition get_event (path : string) : value :=
  VObj [("httpMethod", VStr "GET");
        ("path", VStr path);
        ("headers", VObj [("X-Role", VStr "admin")]);
        ("requestContext", VObj [("authorizer", VObj [("claims", VObj [])])])].

(** The same request with the header name in lower case. *)
Definition get_event_lower (path : string) : value :=
  VObj [("httpMethod", VStr "GET");
        ("path", VStr path);
        ("headers", VObj [("x-role", VStr "admin")]);
        ("requestContext", VObj [("authorizer", VObj [("claims", VObj [])])])].

(** The engines of the examples: one accepts every request, one rejects
    every request, one wants the role header.  They know the JSON text of
    the answer of [ok_handler]. *)
Definition known : texts :=
  [(toString (stringify_value (VObj [("id", VNum 1)])), VObj [("id", VNum 1)])].
Definition accepting : Collaborators := engine known accept.
Definition rejecting : Collaborators := engine known reject.
Definition role_checking : Collaborators := engine known require_role.

(** A success transformer that forgets the [body] of the envelope. *)
Definition bodyless : successTransformer :=
  fun _ statusCode => Normal (VObj [("statusCode", statusCode)]).

(** [GET path] with no headers and no caller identity. *)
Definition bare_event (path : string) : value :=
  VObj [("httpMethod", VStr "GET"); ("path", VStr path)].

(** An event with no [httpMethod]. *)
Definition methodless_event : value :=
  VObj [("path", VStr "/pet/12")].

(** A specification document without [paths]. *)
Definition pathless : value := VObj [("openapi", VStr "3.0.0")].

(** The instance [o] on the specification [spec]. *)
Definition with_spec (spec : value) (o : validator) : validator :=
  mkValidator spec (contentType o) (validateSpec o) (validateRequests o)
    (validateResponses o) (requestBodyTransformer o) (requestPathTransformer o)
    (requestQueryTransformer o) (responseSuccessTransformer o)
    (responseErrorTransformer o) (removeAdditionalRequestProps o)
    (removeAdditionalResponseProps o) (roleAuthorizerKey o) (filterByRole o)
    (defaultRoleName o) (AJVoptions o) (config o) (lambdaBody o) (event o).

(** The instance that filters by the role claim [role]. *)
Definition role_filtering (h : handler) : validator :=
  instance VUndefined (VBool true) (VStr "role") None h.

(** [GET path] by a caller whose claims give the role [admin]. *)
Definition admin_event (path : string) : value :=
  VObj [("httpMethod", VStr "GET");
        ("path", VStr path);
        ("requestContext",
         VObj [("authorizer", VObj [("claims", VObj [("role", VStr "admin")])])])].

(** A specification in which the literal key [/pet/mine] comes after the
    template [/pet/{id}]. *)
Definition overlapping : value :=
  VObj [("/pet/{id}", VObj [("get", VObj [("operationId", VStr "getPet")])]);
        ("/pet/mine", VObj [("get", VObj [("operationId", VStr "getMine")])])].

(** [POST /pet] whose body is the JSON text of [{id: 1}]. *)
Definition post_event : value :=
  VObj [("body", stringify_value (VObj [("id", VNum 1)]));
        ("httpMethod", VStr "POST");
        ("path", VStr "/pet")].

(** [GET path] with the headers [h]. *)
Definition headers_event (path : string) (h : list (string * value)) : value :=
  VObj [("httpMethod", VStr "GET");
        ("path", VStr path);
        ("headers", VObj h)].

End Demo.

(** ** Specification-side definitions *)

Section Statements.

Context {collaborators : Collaborators}.

(** The envelope of the catch block for a fault [error] that has
    properties to read (lines 150-153). *)
Definition error_envelope (error : value) : value :=
  VObj [("body", JSON_stringify (VObj [("message", get error "message")]));
        ("statusCode", js_or (get error "statusCode") (VNum 500))].

(** The envelope of a fault as the specification words it:
    [{body: serialize({message}), statusCode: fault.statusCode ?? 500}],
    the fault's own status code whenever it has one. *)
Definition spec_error_envelope (error : value) : value :=
  VObj [("body", JSON_stringify (VObj [("message", get error "message")]));
        ("statusCode", match get error "statusCode" with
                       | VUndefined | VNull => VNum 500
                       | statusCode => statusCode
                       end)].

(** The request composite of lines 168-179 for the event [ev]. *)
Definition prepared_request (ev : value) : request :=
  {| body := js_or (get ev "body") (VObj []);
     query := js_or (get ev "queryStringParameters") (VObj []);
     headers := lower_copies (js_or (get ev "headers") (VObj []));
     params := js_or (get ev "pathParameters") (VObj []) |}.

(** The event as [_validateRequests] leaves it before the validator runs:
    a headers object has received its lower-cased copies. *)
Definition prepared_event (ev : value) : value :=
  if truthy (get ev "headers")
  then put ev "headers" (lower_copies (get ev "headers"))
  else ev.

(** [o'] differs from [o] at most in the fields [event] and [config] and
    in the [removeAdditional] property of [AJVoptions]. *)
Definition frame (o o' : validator) : Prop :=
  apiSpec o' = apiSpec o /\
  contentType o' = contentType o /\
  validateSpec o' = validateSpec o /\
  validateRequests o' = validateRequests o /\
  validateResponses o' = validateResponses o /\
  requestBodyTransformer o' = requestBodyTransformer o /\
  requestPathTransformer o' = requestPathTransformer o /\
  requestQueryTransformer o' = requestQueryTransformer o /\
  responseSuccessTransformer o' = responseSuccessTransformer o /\
  responseErrorTransformer o' = responseErrorTransformer o /\
  removeAdditionalRequestProps o' = removeAdditionalRequestProps o /\
  removeAdditionalResponseProps o' = removeAdditionalResponseProps o /\
  roleAuthorizerKey o' = roleAuthorizerKey o /\
  filterByRole o' = filterByRole o /\
  defaultRoleName o' = defaultRoleName o /\
  lambdaBody o' = lambdaBody o /\
  (forall k, k <> "removeAdditional" ->
             get (AJVoptions o') k = get (AJVoptions o) k).

(** A computation keeps the frame of the instance. *)
Definition framed {A : Type} (m : M A) : Prop :=
  forall s, frame (this s) (this (snd (m s))).

Definition is_callback (c : call) : bool :=
  match c with CallCallback _ => true | _ => false end.

Definition is_handler_call (c : call) : bool :=
  match c with CallLambdaBody _ _ => true | _ => false end.

(** A computation appends to the log no call that satisfies [p]. *)
Definition silent {A : Type} (p : call -> bool) (m : M A) : Prop :=
  forall s, existsb p (calls s) = false -> existsb p (calls (snd (m s))) = false.

(** A response has the own property [k]. *)
Definition has_field (response : value) (k : string) : Prop :=
  exists props v, response = VObj props /\ lookup k props = Some v.

(** Two header lists that differ only in the casing of their names. *)
Definition same_headers_up_to_case (h1 h2 : list (string * value)) : Prop :=
  Forall2 (fun a b => lower (fst a) = lower (fst b) /\ snd a = snd b) h1 h2.


(** The first name of [names] whose lower-cased form is [q]. *)
Definition first_cased (q : string) (names : list string) : option string :=
  find (fun k => String.eqb (lower k) q) names.

(** The headers with every name lower-cased. *)
Definition lowered (h : list (string * value)) : list (string * value) :=
  map (fun kv => (lower (fst kv), snd kv)) h.

(** The role as the specification words it: the claim under the
    configured key, and the configured default role name when the claim
    is absent. *)
Definition spec_role (ev : value) (roleAuthorizerKey : string)
  (defaultRoleName : value) : value :=
  match baseGet ev ["requestContext"; "authorizer"; "claims"; roleAuthorizerKey] with
  | VUndefined => defaultRoleName
  | claim => claim
  end.

(** A claim name that lodash reads as one path segment (no dot). *)
Fixpoint plain_key (key : string) : bool :=
  match key with
  | EmptyString => true
  | String c rest => andb (negb (Ascii.eqb c ".")) (plain_key rest)
  end.

(** The fault of line 68. *)
Definition path_not_found (path : value) (verb : string) : value :=
  ValidationError
    (VStr ("The path " ++ toString path ++ " could not be found with http method "
           ++ verb ++ " in the API spec"))
    (VNum 400).

Definition is_request_validation (c : call) : bool :=
  match c with CallRequestValidator _ _ => true | _ => false end.

Definition is_response_validation (c : call) : bool :=
  match c with CallResponseValidator _ _ _ _ _ => true | _ => false end.

(** A computation keeps the property [P] of the instance and appends to
    the log no call that satisfies [p]. *)
Definition guarded {A : Type} (P : validator -> Prop) (p : call -> bool)
  (m : M A) : Prop :=
  forall s, P (this s) ->
    P (this (snd (m s))) /\ filter p (calls (snd (m s))) = filter p (calls s).

(** Every name of a headers object is in lower case already. *)
Definition lower_case_names (h : list (string * value)) : Prop :=
  Forall (fun kv => lower (fst kv) = fst kv) h.

(** No character of [w] is a slash. *)
Fixpoint no_slash (w : string) : bool :=
  match w with
  | EmptyString => true
  | String c rest => andb (negb (Ascii.eqb c "/")) (no_slash rest)
  end.

(** A letter, a digit or a hyphen. *)
Definition alnum_or_hyphen (c : ascii) : bool :=
  let n := nat_of_ascii c in
  orb (andb (Nat.leb 97 n) (Nat.leb n 122))
      (orb (andb (Nat.leb 65 n) (Nat.leb n 90))
           (orb (andb (Nat.leb 48 n) (Nat.leb n 57)) (Nat.eqb n 45))).

Fixpoint all_chars (p : ascii -> bool) (w : string) : bool :=
  match w with
  | EmptyString => true
  | String c rest => andb (p c) (all_chars p rest)
  end.

(** Neither an opening nor a closing brace. *)
Definition not_brace (c : ascii) : bool :=
  andb (negb (Ascii.eqb c "{")) (negb (Ascii.eqb c "}")).

(** Two [AJVoptions] objects that differ at most in an earlier write of
    [removeAdditional]. *)
Definition options_alike (a a' : value) : Prop :=
  a' = a \/
  exists props x, a = VObj props /\ a' = VObj (update "removeAdditional" x props).

(** [o'] is [o] with an [AJVoptions] object alike. *)
Definition same_but_options (o o' : validator) : Prop :=
  exists a', options_alike (AJVoptions o) a' /\ o' = set_AJVoptions a' o.

(** The two computations give the same completion and the same calls on
    states that are alike, and leave states that are alike. *)
Definition alike {A : Type} (m m' : M A) : Prop :=
  forall s s',
    calls s' = calls s -> same_but_options (this s) (this s') ->
    fst (m' s') = fst (m s)
    /\ calls (snd (m' s')) = calls (snd (m s))
    /\ same_but_options (this (snd (m s))) (this (snd (m' s'))).

(** What an instance can look like after invocations on [o]: another
    event, another [removeAdditional], and, when a validation is enabled,
    another [config]. *)
Definition left_by (o o' : validator) : Prop :=
  exists e c a',
    o' = set_event e (set_config c (set_AJVoptions a' o))
    /\ options_alike (AJVoptions o) a'
    /\ (c = config o
        \/ orb (truthy (validateRequests o)) (truthy (validateResponses o)) = true).

(** Lines 74-147 for the path [path]: what the [try] block does once the
    route is resolved. *)
Definition after_route
  (ev1 context : value) (callback : bool) : M value :=
  bind (sanitize (get ev1 "path")) (fun _ =>
  bind (transform_request (get ev1 "body") (get ev1 "pathParameters")
          (get ev1 "queryStringParameters")) (fun _ =>
  bind (handler_stage context) (fun produced =>
  response_stage (get ev1 "path") (fst produced) (snd produced) callback))).

(** The predicate on calls that holds of none. *)
Definition no_call (c : call) : bool := false.

(** The characters that [RegExp] reads as operators outside a class:
    [^ $ \ . * + ? ( ) [ ] { } |]. *)
Definition syntax_chars : list ascii :=
  ["^"; "$"; ascii_of_nat 92; "."; "*"; "+"; "?"; "("; ")"; "["; "]"; "{"; "}";
   "|"]%char.

(** A character that a pattern reads as itself. *)
Definition literal_char (c : ascii) : bool :=
  negb (existsb (Ascii.eqb c) syntax_chars).

(** The text of a template outside its [{var}] segments holds no pattern
    operator (and no brace that is left over): [inside] is true while a
    segment is skipped, as in [template_with]. *)
Fixpoint literal_outside (inside : bool) (key : string) : bool :=
  match key with
  | EmptyString => true
  | String c rest =>
      if inside then
        if Ascii.eqb c "}"%char then literal_outside false rest
        else literal_outside true rest
      else if andb (Ascii.eqb c "{"%char) (closes rest)
           then literal_outside true rest
           else andb (literal_char c) (literal_outside false rest)
  end.

(** A template that [RegExp] reads as [template] does: line 61 hands the
    key to [RegExp] without escaping it, so a key with an operator outside
    its braces is a pattern of its own, which [template] does not give. *)
Definition literal_template (key : string) : bool := literal_outside false key.

(** The verbs of an OpenAPI path item, in lower case.  No value inherits
    a property of one of these names, so [entry[verb]] reads an own
    property, which is what [get] models. *)
Definition http_verbs : list string :=
  ["get"; "put"; "post"; "delete"; "options"; "head"; "patch"; "trace"].

Definition http_verb (verb : string) : bool :=
  existsb (String.eqb verb) http_verbs.

(** A character of the names that the built-in prototypes define: an
    ASCII letter, a digit, [_] or [$]. *)
Definition identifier_char (c : ascii) : bool :=
  let n := nat_of_ascii c in
  orb (andb (Nat.leb 97 n) (Nat.leb n 122))
      (orb (andb (Nat.leb 65 n) (Nat.leb n 90))
           (orb (andb (Nat.leb 48 n) (Nat.leb n 57))
                (orb (Nat.eqb n 95) (Nat.eqb n 36)))).

(** A property name that no value inherits and that is no index and not
    the [length] of a string: it holds a character (a slash, say) that
    the names of the built-in prototypes do not have, so [o[name]] reads
    an own property, which is what [get] models. *)
Definition not_builtin_name (name : string) : bool :=
  negb (all_chars identifier_char name).

(** The names that every object inherits from [Object.prototype]. *)
Definition object_prototype_names : list string :=
  ["constructor"; "__defineGetter__"; "__defineSetter__"; "hasOwnProperty";
   "__lookupGetter__"; "__lookupSetter__"; "isPrototypeOf";
   "propertyIsEnumerable"; "toString"; "valueOf"; "__proto__";
   "toLocaleString"].

(** A name that an object does not inherit: [o[name]] on an object reads
    an own property. *)
Definition own_name (name : string) : bool :=
  negb (existsb (String.eqb name) object_prototype_names).

(** Neither an opening nor a closing bracket. *)
Definition not_bracket (c : ascii) : bool :=
  andb (negb (Ascii.eqb c "[")) (negb (Ascii.eqb c "]")).

(** Two verdicts of the request validator that agree: both reject, with
    the same violations, or both accept and leave the same body, query
    and path parameters and the same value under every lower-case header
    name. *)
Definition same_verdict (v1 v2 : value + request) : Prop :=
  match v1, v2 with
  | inl violations1, inl violations2 => violations1 = violations2
  | inr s1, inr s2 =>
      body s1 = body s2 /\ query s1 = query s2 /\ params s1 = params s2 /\
      forall name, lower name = name ->
                   get (headers s1) name = get (headers s2) name
  | _, _ => False
  end.

(** The names of the object that [_validateRequests] returns (lines
    185-190), which [Object.assign] writes to the event on line 79. *)
Definition sanitized_names : list string :=
  ["body"; "queryStringParams"; "headers"; "pathParameters"].

(** The validator reads headers under their lower-cased names only (the
    comment on lines 174-176): its verdicts agree on two requests that
    agree on every lower-case header name and on the other parts. *)
Definition reads_lower_case_headers : Prop :=
  forall apiSpec AJVoptions schema path r1 r2,
    body r1 = body r2 -> query r1 = query r2 -> params r1 = params r2 ->
    (forall name, lower name = name ->
                  get (headers r1) name = get (headers r2) name) ->
    same_verdict (request_check apiSpec AJVoptions schema path r1)
                 (request_check apiSpec AJVoptions schema path r2).

End Statements.

(** ** Properties *)

Section Properties.

Context {collaborators : Collaborators}.
Local Open Scope js_scope.

(** *** Patterns *)

Lemma nullable_Matches (r : regex) : nullable r = true <-> Matches r EmptyString.
Proof.
  induction r as [| | c | ranges | r1 IH1 r2 IH2 | r1 IH1 r2 IH2 | r IH]; simpl.
  - split; [discriminate | intros H; inversion H].
  - split; [intros _; constructor | reflexivity].
  - split; [discriminate | intros H; inversion H].
  - split; [discriminate | intros H; inversion H].
  - rewrite orb_true_iff, IH1, IH2; split.
    + intros [H | H]; [apply MAltL | apply MAltR]; exact H.
    + intros H; inversion H; subst; [left | right]; assumption.
  - rewrite andb_true_iff, IH1, IH2; split.
    + intros [H1 H2]; exact (MSeq r1 r2 EmptyString EmptyString H1 H2).
    + intros H; inversion H as [| | | | | r s w1 w2 H1 H2 Hr Hw | |]; subst.
      destruct w1; [| discriminate]; destruct w2; [| discriminate].
      split; assumption.
  - split; [intros _; constructor | reflexivity].
Qed.

Lemma Matches_Star_cons (r : regex) (c : ascii) (w : string) :
  Matches (Star r) (String c w) ->
  exists w1 w2, w = (w1 ++ w2)%string /\ Matches r (String c w1) /\ Matches (Star r) w2.
Proof.
  intros H; remember (Star r) as sr eqn:Hsr; remember (String c w) as cw eqn:Hcw.
  revert w Hcw;
    induction H as [| c0 | ranges c0 Hin | r0 s0 w0 H0 IH0 | r0 s0 w0 H0 IH0
                    | r0 s0 w1 w2 H1 IH1 H2 IH2 | r0 | r0 w1 w2 H1 IH1 H2 IH2];
    intros w Hcw; try discriminate.
  injection Hsr as ->.
  destruct w1 as [| c1 w1]; simpl in Hcw.
  - apply (IH2 eq_refl _ Hcw).
  - injection Hcw as Hc Hw; subst c1 w.
    exists w1, w2; repeat split; assumption.
Qed.

Lemma deriv_Matches (r : regex) (c : ascii) (w : string) :
  Matches (deriv c r) w <-> Matches r (String c w).
Proof.
  revert w; induction r as [| | c' | ranges | r1 IH1 r2 IH2 | r1 IH1 r2 IH2 | r IH];
    intros w; simpl.
  - split; intros H; inversion H.
  - split; intros H; inversion H.
  - destruct (Ascii.eqb_spec c c') as [-> | Hne]; split; intros H;
      inversion H; subst; try constructor; congruence.
  - destruct (in_ranges ranges c) eqn:Hin; split; intros H;
      inversion H; subst; try (constructor; assumption); congruence.
  - split; intros H; inversion H; subst;
      [apply MAltL, IH1 | apply MAltR, IH2 | apply MAltL, IH1 | apply MAltR, IH2];
      assumption.
  - assert (Hseq : Matches (Seq (deriv c r1) r2) w ->
                   Matches (Seq r1 r2) (String c w)).
    { intros H; inversion H as [| | | | | r s w1 w2 H1 H2 Hr Hw | |]; subst.
      exact (MSeq r1 r2 (String c w1) w2 (proj1 (IH1 w1) H1) H2). }
    assert (Hsplit : Matches (Seq r1 r2) (String c w) ->
                     Matches (Seq (deriv c r1) r2) w
                     \/ (nullable r1 = true /\ Matches (deriv c r2) w)).
    { intros H; inversion H as [| | | | | r s w1 w2 H1 H2 Hr Hw | |]; subst.
      destruct w1 as [| c1 w1]; simpl in Hw.
      - right; subst w2; split; [apply nullable_Matches, H1 | apply IH2, H2].
      - injection Hw as Hc Hw'; subst c1 w.
        left; constructor; [apply IH1, H1 | exact H2]. }
    destruct (nullable r1) eqn:Hnull; split.
    + intros H; inversion H; subst; [apply Hseq; assumption |].
      apply (MSeq r1 r2 EmptyString (String c w));
        [apply nullable_Matches, Hnull | apply IH2; assumption].
    + intros H; destruct (Hsplit H) as [H' | [_ H']]; [apply MAltL | apply MAltR];
        exact H'.
    + exact Hseq.
    + intros H; destruct (Hsplit H) as [H' | [Hn _]]; [exact H' | discriminate].
  - split.
    + intros H; inversion H as [| | | | | r0 s w1 w2 H1 H2 Hr Hw | |]; subst.
      exact (MStarStep r (String c w1) w2 (proj1 (IH w1) H1) H2).
    + intros H; destruct (Matches_Star_cons _ _ _ H) as (w1 & w2 & -> & H1 & H2).
      constructor; [apply IH, H1 | exact H2].
Qed.

(** [matches] decides the relation. *)
Lemma matches_Matches (r : regex) (w : string) : matches r w = true <-> Matches r w.
Proof.
  revert r; induction w as [| c w IH]; intros r; simpl.
  - apply nullable_Matches.
  - rewrite IH; apply deriv_Matches.
Qed.

Lemma Matches_any_star (w : string) : Matches (Star anychar) w.
Proof.
  induction w as [| c w IH]; [constructor |].
  apply (MStarStep anychar (String c EmptyString) w); [| exact IH].
  constructor; unfold in_ranges; simpl.
  assert (H := nat_ascii_bounded c).
  apply orb_true_iff; left; apply Nat.leb_le; lia.
Qed.

(** [test] looks for a suffix of the input that the pattern matches. *)
Lemma test_suffix (r : regex) (w : string) :
  test r w = true <-> exists w1 w2, w = (w1 ++ w2)%string /\ Matches r w2.
Proof.
  unfold test; rewrite matches_Matches; split.
  - intros H; inversion H as [| | | | | r0 s w1 w2 H1 H2 Hr Hw | |]; subst.
    exists w1, w2; split; [reflexivity | exact H2].
  - intros (w1 & w2 & -> & H); constructor; [apply Matches_any_star | exact H].
Qed.

Lemma Matches_Star_mono (r r' : regex) :
  (forall w, Matches r w -> Matches r' w) ->
  forall w, Matches (Star r) w -> Matches (Star r') w.
Proof.
  intros Hsub w H; remember (Star r) as sr eqn:Hsr.
  induction H as [| c0 | ranges c0 Hin | r0 s0 w0 H0 IH0 | r0 s0 w0 H0 IH0
                  | r0 s0 w1 w2 H1 IH1 H2 IH2 | r0 | r0 w1 w2 H1 IH1 H2 IH2];
    try discriminate.
  - constructor.
  - injection Hsr as ->; constructor; [apply Hsub, H1 | apply IH2; reflexivity].
Qed.

Lemma Matches_Seq_mono (r r' s s' : regex) :
  (forall w, Matches r w -> Matches r' w) ->
  (forall w, Matches s w -> Matches s' w) ->
  forall w, Matches (Seq r s) w -> Matches (Seq r' s') w.
Proof.
  intros Hr Hs w H; inversion H; subst; constructor; auto.
Qed.

Lemma in_spec_var_class (c : ascii) :
  in_ranges spec_var_class c = true -> in_ranges var_class c = true.
Proof.
  destruct c as [[] [] [] [] [] [] [] []]; vm_compute; intros H;
    first [reflexivity | discriminate H].
Qed.

Lemma Matches_spec_var_segment (w : string) :
  Matches spec_var_segment w -> Matches var_segment w.
Proof.
  assert (Hunit : forall w,
            Matches (Alt (Cls spec_var_class) (Seq (Chr "%") (Seq (Chr "2") (Chr "0")))) w ->
            Matches (Alt (Cls var_class) (Seq (Chr "%") (Seq (Chr "2") (Chr "0")))) w).
  { intros w0 H; inversion H as [| | | r s w' H' | r s w' H' | | |]; subst.
    - inversion H'; subst; apply MAltL; constructor; apply in_spec_var_class; assumption.
    - apply MAltR; exact H'. }
  unfold spec_var_segment, var_segment, Plus.
  apply Matches_Seq_mono; [exact Hunit | apply Matches_Star_mono; exact Hunit].
Qed.

Lemma Matches_template_mono (inside : bool) (key w : string) :
  Matches (template_with spec_var_segment inside key) w ->
  Matches (template_with var_segment inside key) w.
Proof.
  revert inside w; induction key as [| c rest IH]; intros inside w; simpl;
    [exact (fun H => H) |].
  destruct inside.
  - destruct (Ascii.eqb c "}"); apply IH.
  - destruct (andb (Ascii.eqb c "{") (closes rest));
      apply Matches_Seq_mono; auto using Matches_spec_var_segment.
Qed.

(** Every path that matches a template in the words of the specification
    matches it for the code: the pattern of the code only accepts more. *)
Lemma spec_template_test_accepted (key path : string) :
  spec_template_test key path = true -> template_test key path = true.
Proof.
  unfold spec_template_test, template_test, template; rewrite !test_suffix.
  intros (w1 & w2 & Hw & H); exists w1, w2; split; [exact Hw |].
  apply Matches_template_mono; exact H.
Qed.

(** *** The monad *)

Lemma frame_refl (o : validator) : frame o o.
Proof. unfold frame; repeat split; reflexivity. Qed.

Lemma frame_trans (a b c : validator) : frame a b -> frame b c -> frame a c.
Proof.
  unfold frame; intros Hab Hbc.
  repeat match goal with H : _ /\ _ |- _ => destruct H end.
  repeat split; try congruence.
  intros k Hk.
  match goal with
  | H1 : forall k, _ -> get (AJVoptions c) k = _,
    H2 : forall k, _ -> get (AJVoptions b) k = _ |- _ =>
      rewrite (H1 k Hk); apply (H2 k Hk)
  end.
Qed.

Lemma frame_set_event (v : value) (o : validator) : frame o (set_event v o).
Proof. unfold frame; repeat split; reflexivity. Qed.

Lemma frame_set_config (v : value) (o : validator) : frame o (set_config v o).
Proof. unfold frame; repeat split; reflexivity. Qed.

Lemma lookup_update_other (k k' : string) (v : value) (props : list (string * value)) :
  k' <> k -> lookup k' (update k v props) = lookup k' props.
Proof.
  intros Hne; induction props as [|[k0 v0] rest IH]; simpl.
  - destruct (String.eqb_spec k' k); [contradiction | reflexivity].
  - destruct (String.eqb_spec k k0) as [-> | Hk]; simpl.
    + destruct (String.eqb_spec k' k0); [contradiction | reflexivity].
    + destruct (String.eqb_spec k' k0); [reflexivity | exact IH].
Qed.

Lemma lookup_update_same (k : string) (v : value) (props : list (string * value)) :
  lookup k (update k v props) = Some v.
Proof.
  induction props as [|[k0 v0] rest IH]; simpl.
  - rewrite String.eqb_refl; reflexivity.
  - destruct (String.eqb_spec k k0) as [-> | Hk]; simpl.
    + rewrite String.eqb_refl; reflexivity.
    + destruct (String.eqb_spec k k0); [contradiction | exact IH].
Qed.

Lemma frame_set_removeAdditional (v opts : value) (o : validator) :
  set (AJVoptions o) "removeAdditional" v = Normal opts ->
  frame o (set_AJVoptions opts o).
Proof.
  intros Hset; unfold frame; repeat split; try reflexivity.
  intros k Hk; simpl.
  destruct (AJVoptions o); simpl in Hset; try discriminate.
  injection Hset as <-; simpl.
  rewrite lookup_update_other by exact Hk; reflexivity.
Qed.

Lemma framed_ret {A : Type} (a : A) : framed (ret a).
Proof. intros s; apply frame_refl. Qed.

Lemma framed_throw {A : Type} (e : value) : framed (@throw A e).
Proof. intros s; apply frame_refl. Qed.

Lemma framed_lift {A : Type} (c : completion A) : framed (lift c).
Proof. intros s; apply frame_refl. Qed.

Lemma framed_read : framed read.
Proof. intros s; apply frame_refl. Qed.

Lemma framed_emit (c : call) : framed (emit c).
Proof. intros s; apply frame_refl. Qed.

Lemma framed_set_event (v : value) : framed (write (set_event v)).
Proof. intros s; apply frame_set_event. Qed.

Lemma framed_set_config (v : value) : framed (write (set_config v)).
Proof. intros s; apply frame_set_config. Qed.

Lemma framed_bind {A B : Type} (m : M A) (f : A -> M B) :
  framed m -> (forall a, framed (f a)) -> framed (bind m f).
Proof.
  intros Hm Hf s; unfold bind.
  specialize (Hm s); destruct (m s) as [[a | e] s']; simpl in *.
  - eapply frame_trans; [exact Hm | apply Hf].
  - exact Hm.
Qed.

Lemma framed_try_catch {A : Type} (m : M A) (h : value -> M A) :
  framed m -> (forall e, framed (h e)) -> framed (try_catch m h).
Proof.
  intros Hm Hh s; unfold try_catch.
  specialize (Hm s); destruct (m s) as [[a | e] s']; simpl in *.
  - exact Hm.
  - eapply frame_trans; [exact Hm | apply Hh].
Qed.

(** The one write to [AJVoptions]: the property set on the object that
    was just read from the instance. *)
Lemma framed_removeAdditional {A : Type} (v : validator -> value)
  (k : validator -> value -> M A) :
  (forall o opts, framed (k o opts)) ->
  framed (o <- read ;;
          opts <- lift (set (AJVoptions o) "removeAdditional" (v o)) ;;
          write (set_AJVoptions opts) ;;
          k o opts).
Proof.
  intros Hk s; unfold bind, read, lift, write; simpl.
  destruct (set (AJVoptions (this s)) "removeAdditional" (v (this s)))
    as [opts | e] eqn:Hset; simpl.
  - eapply frame_trans; [| apply Hk].
    simpl; eapply frame_set_removeAdditional; exact Hset.
  - apply frame_refl.
Qed.

Ltac framed_step :=
  first
    [ apply framed_ret | apply framed_throw | apply framed_lift
    | apply framed_read | apply framed_emit
    | apply framed_set_event | apply framed_set_config
    | apply framed_bind; [| intros ?]
    | match goal with
      | |- framed (match ?x with _ => _ end) => destruct x
      end ].

Lemma framed_validateRequests (path schema : value) :
  framed (_validateRequests path schema).
Proof.
  unfold _validateRequests; destruct (truthy schema); [| apply framed_ret].
  apply (framed_removeAdditional removeAdditionalRequestProps); intros o opts.
  repeat framed_step.
Qed.

Lemma framed_validateResponses (path response schema statusCode role : value) :
  framed (_validateResponses path response schema statusCode role).
Proof.
  unfold _validateResponses; destruct (truthy schema); [| apply framed_ret].
  apply (framed_removeAdditional removeAdditionalResponseProps); intros o opts.
  repeat framed_step.
Qed.

(** *** The instance across an invocation *)

(** C9, as amended: running the installed handler changes at most the
    fields [event] and [config] of the instance and the [removeAdditional]
    property of its [AJVoptions] object; every other field is left as it
    was. *)
Theorem install_frame (o : validator) (ev context : value) (callback : bool) :
  frame o (this (snd (invoke o ev context callback))).
Proof.
  unfold invoke.
  change (frame (this (mkState o []))
            (this (snd (install ev context callback (mkState o []))))).
  generalize (mkState o []); change (framed (install ev context callback)).
  unfold install, try_block, catch_block, request_stage, handler_stage,
    response_stage, route, sanitize, transform_request, call_handler,
    transform_response, check_envelope, filter_response, deliver.
  apply framed_try_catch; [| intros e];
    repeat first [ apply framed_validateRequests
                 | apply framed_validateResponses
                 | framed_step ].
Qed.

(** *** The constructor *)

Lemma truthy_js_or_true (v : value) : truthy (js_or v (VBool true)) = true.
Proof. unfold js_or; destruct (truthy v) eqn:Hv; [exact Hv | reflexivity]. Qed.

(** C10, as amended: whatever the configuration, the [validateSpec]
    setting of the constructed validator is truthy and is never [false];
    it is [true] itself whenever the option is absent, [false] or any
    other falsy value, and it is the supplied value when that is truthy
    (so [true] for every boolean). *)
Theorem constructor_validateSpec (params : Params.t) (lambdaBody : handler)
  (o : validator) :
  constructor params lambdaBody = Normal o ->
  truthy (validateSpec o) = true /\
  validateSpec o <> VBool false /\
  (truthy (Params.validateSpec params) = false -> validateSpec o = VBool true) /\
  (truthy (Params.validateSpec params) = true ->
   validateSpec o = Params.validateSpec params) /\
  (forall b, Params.validateSpec params = VBool b -> validateSpec o = VBool true).
Proof.
  unfold constructor; intros H.
  destruct (orb _ _); [discriminate |].
  injection H as <-; simpl.
  assert (Ht := truthy_js_or_true (Params.validateSpec params)).
  repeat split.
  - exact Ht.
  - intros Hf; rewrite Hf in Ht; discriminate.
  - unfold js_or; intros ->; reflexivity.
  - unfold js_or; intros ->; reflexivity.
  - intros b Hb; rewrite Hb; destruct b; reflexivity.
Qed.

(** *** The response transform *)

(** C6: for a handler outcome whose status code is below 300, the success
    transformer runs when one is configured (once, and nothing else), and
    otherwise the default envelope is built, which carries the status
    code; for a status code of 300 or more, the error transformer runs
    when one is configured, and otherwise a fault is raised that carries
    the handler's message and status code. *)
Theorem transform_response_cases (response statusCode message : value) (s : state) :
  (lt statusCode 300 = true ->
   match responseSuccessTransformer (this s) with
   | Some f =>
       transform_response response statusCode message s
       = (f response statusCode,
          mkState (this s)
            (calls s ++ [CallResponseSuccessTransformer response statusCode]))
   | None =>
       transform_response response statusCode message s
       = (Normal (_constructDefaultResponse response statusCode), s)
       /\ get (_constructDefaultResponse response statusCode) "statusCode"
          = statusCode
   end) /\
  (ge statusCode 300 = true ->
   match responseErrorTransformer (this s) with
   | Some g =>
       transform_response response statusCode message s
       = (g response statusCode message,
          mkState (this s)
            (calls s ++ [CallResponseErrorTransformer response statusCode message]))
   | None =>
       transform_response response statusCode message s
       = (Throw (ValidationError message statusCode), s)
       /\ get (ValidationError message statusCode) "statusCode" = statusCode
       /\ get (ValidationError message statusCode) "message" = message
   end).
Proof.
  unfold transform_response, bind, read, emit, lift, ret, throw; split.
  - intros Hlt; rewrite Hlt.
    destruct (responseSuccessTransformer (this s)) as [f |]; simpl.
    + destruct (f response statusCode); reflexivity.
    + split; reflexivity.
  - intros Hge.
    assert (Hlt : lt statusCode 300 = false).
    { unfold lt, ge in *; destruct (ToNumber statusCode); [lia | reflexivity]. }
    rewrite Hlt.
    destruct (responseErrorTransformer (this s)) as [g |]; simpl.
    + destruct (g response statusCode message); reflexivity.
    + repeat split; reflexivity.
Qed.

(** *** The top boundary *)

Lemma member_not_nullish (o : value) (k : string) :
  nullish o = false -> member o k = Normal (get o k).
Proof. destruct o; simpl; intros H; try discriminate; reflexivity. Qed.

Lemma catch_block_envelope (callback : bool) (e : value) (s : state) :
  nullish e = false ->
  catch_block callback e s = deliver callback (error_envelope e) s.
Proof.
  intros He; unfold catch_block, bind, lift.
  rewrite !(member_not_nullish e _ He); reflexivity.
Qed.

Lemma deliver_run (callback : bool) (response : value) (s : state) :
  deliver callback response s
  = (Normal (if callback then VUndefined else response),
     mkState (this s)
             (calls s ++ if callback then [CallCallback response] else [])).
Proof.
  unfold deliver, bind, emit, ret; destruct callback; simpl.
  - reflexivity.
  - rewrite app_nil_r; destruct s; reflexivity.
Qed.

Lemma delivered_deliver (callback : bool) (response : value) (s : state) :
  delivered callback (deliver callback response s) = Some response.
Proof.
  rewrite deliver_run; unfold delivered; simpl.
  destruct callback; [| reflexivity].
  simpl; rewrite rev_unit; reflexivity.
Qed.

Lemma silent_ret {A : Type} (p : call -> bool) (a : A) : silent p (ret a).
Proof. intros s H; exact H. Qed.

Lemma silent_throw {A : Type} (p : call -> bool) (e : value) : silent p (@throw A e).
Proof. intros s H; exact H. Qed.

Lemma silent_lift {A : Type} (p : call -> bool) (c : completion A) : silent p (lift c).
Proof. intros s H; exact H. Qed.

Lemma silent_read (p : call -> bool) : silent p read.
Proof. intros s H; exact H. Qed.

Lemma silent_write (p : call -> bool) (f : validator -> validator) :
  silent p (write f).
Proof. intros s H; exact H. Qed.

Lemma silent_emit (p : call -> bool) (c : call) : p c = false -> silent p (emit c).
Proof.
  intros Hc s H; unfold emit; simpl.
  rewrite existsb_app, H; simpl; rewrite Hc; reflexivity.
Qed.

Lemma silent_bind {A B : Type} (p : call -> bool) (m : M A) (f : A -> M B) :
  silent p m -> (forall a, silent p (f a)) -> silent p (bind m f).
Proof.
  intros Hm Hf s H; unfold bind.
  specialize (Hm s H); destruct (m s) as [[a | e] s']; simpl in *.
  - apply Hf; exact Hm.
  - exact Hm.
Qed.

Ltac silent_step :=
  first
    [ apply silent_ret | apply silent_throw | apply silent_lift
    | apply silent_read | apply silent_write
    | apply silent_emit; reflexivity
    | apply silent_bind; [| intros ?]
    | match goal with
      | |- silent _ (match ?x with _ => _ end) => destruct x
      end ].

Lemma silent_request_stage (ev : value) : silent is_callback (request_stage ev).
Proof.
  unfold request_stage, route, sanitize, transform_request, _validateRequests.
  repeat silent_step.
Qed.

Lemma silent_handler_stage (context : value) :
  silent is_callback (handler_stage context).
Proof.
  unfold handler_stage, call_handler, transform_response.
  repeat silent_step.
Qed.

Lemma silent_check_envelope (response : value) :
  silent is_callback (check_envelope response).
Proof. unfold check_envelope; repeat silent_step. Qed.

Lemma silent_filter_response (path response statusCode : value) :
  silent is_callback (filter_response path response statusCode).
Proof.
  unfold filter_response, _validateResponses; repeat silent_step.
Qed.

(** A fault leaves the [try] block before the callback is reached. *)
Lemma try_block_throw_no_callback (ev context : value) (callback : bool)
  (s s' : state) (e : value) :
  existsb is_callback (calls s) = false ->
  try_block ev context callback s = (Throw e, s') ->
  existsb is_callback (calls s') = false.
Proof.
  intros H0; unfold try_block, response_stage, bind.
  assert (H1 := silent_request_stage ev s H0).
  destruct (request_stage ev s) as [[path | e1] s1]; simpl in H1;
    [| intros H; injection H as _ <-; exact H1].
  assert (H2 := silent_handler_stage context s1 H1).
  destruct (handler_stage context s1) as [[produced | e2] s2]; simpl in H2;
    [| intros H; injection H as _ <-; exact H2].
  assert (H3 := silent_check_envelope (fst produced) s2 H2).
  destruct (check_envelope (fst produced) s2) as [[[] | e3] s3]; simpl in H3;
    [| intros H; injection H as _ <-; exact H3].
  assert (H4 := silent_filter_response path (fst produced) (snd produced) s3 H3).
  destruct (filter_response path (fst produced) (snd produced) s3)
    as [[response | e4] s4]; simpl in H4;
    [| intros H; injection H as _ <-; exact H4].
  rewrite deliver_run; discriminate.
Qed.

(** The boundary on a fault that has properties to read. *)
Lemma invoke_caught (o : validator) (ev context : value) (callback : bool)
  (e : value) (s : state) :
  try_block ev context callback (mkState o []) = (Throw e, s) ->
  nullish e = false ->
  invoke o ev context callback = deliver callback (error_envelope e) s.
Proof.
  intros Htry He; unfold invoke, install, try_catch; rewrite Htry.
  apply catch_block_envelope; exact He.
Qed.

(** C1, as amended: a fault raised anywhere in the [try] block (route
    resolution, sanitization, transforms, the wrapped handler, response
    filtering, the envelope check) that is not [null] or [undefined] is
    caught at the top boundary and handed over, once, as the envelope
    [{body: stringify({message}), statusCode}], where the status code is
    the fault's own when that is truthy and 500 otherwise; the invocation
    itself completes normally. *)
Theorem install_catches (o : validator) (ev context : value) (callback : bool)
  (e : value) (s : state) :
  try_block ev context callback (mkState o []) = (Throw e, s) ->
  nullish e = false ->
  invoke o ev context callback
  = (Normal (if callback then VUndefined else error_envelope e),
     mkState (this s)
       (calls s ++ if callback then [CallCallback (error_envelope e)] else []))
  /\ delivered callback (invoke o ev context callback) = Some (error_envelope e)
  /\ existsb is_callback (calls s) = false
  /\ get (error_envelope e) "statusCode"
     = (if truthy (get e "statusCode") then get e "statusCode" else VNum 500).
Proof.
  intros Htry He.
  assert (Hrun := invoke_caught o ev context callback e s Htry He).
  repeat split.
  - rewrite Hrun; apply deliver_run.
  - rewrite Hrun; apply delivered_deliver.
  - eapply try_block_throw_no_callback; [| exact Htry]; reflexivity.
Qed.

(** An invocation whose [try] block completes is not touched by the
    boundary. *)
Lemma install_normal (o : validator) (ev context : value) (callback : bool)
  (v : value) (s : state) :
  try_block ev context callback (mkState o []) = (Normal v, s) ->
  invoke o ev context callback = (Normal v, s).
Proof. intros H; unfold invoke, install, try_catch; rewrite H; reflexivity. Qed.

(** A thrown [undefined] (a promise rejected without a reason, say) is
    not converted: reading its [message] throws inside the catch block. *)
Lemma catch_block_nullish (callback : bool) (e : value) (s : state) :
  nullish e = true ->
  exists e', catch_block callback e s = (Throw e', s).
Proof.
  destruct e; simpl; intros H; try discriminate;
    eexists; unfold catch_block, bind, lift; simpl; reflexivity.
Qed.

(** Every invocation completes normally, unless the [try] block threw
    [null] or [undefined]. *)
Lemma invoke_completes (o : validator) (ev context : value) (callback : bool) :
  (exists v, fst (invoke o ev context callback) = Normal v)
  \/ (exists e s, try_block ev context callback (mkState o []) = (Throw e, s)
                  /\ nullish e = true).
Proof.
  destruct (try_block ev context callback (mkState o [])) as [[v | e] s] eqn:Htry.
  - left; exists v; rewrite (install_normal _ _ _ _ _ _ Htry); reflexivity.
  - destruct (nullish e) eqn:He.
    + right; exists e, s; split; [reflexivity | exact He].
    + left; rewrite (invoke_caught _ _ _ _ _ _ Htry He), deliver_run.
      eexists; reflexivity.
Qed.

(** X20: the status code that a handler declares is the one handed
    over: a numeric code of 300 or more, with no error transformer
    configured, is the status code of the envelope, next to the handler's
    message. *)
Lemma handler_error_status (o : validator) (ev context : value) (callback : bool)
  (path : value) (s1 : state) (lambdaResponse : list value) (n : Z) :
  request_stage ev (mkState o []) = (Normal path, s1) ->
  snd (lambdaBody (this s1) (event (this s1)) context) = Normal lambdaResponse ->
  nth 1 lambdaResponse VUndefined = VNum n ->
  300 <= n ->
  responseErrorTransformer (this s1) = None ->
  delivered callback (invoke o ev context callback)
  = Some (VObj [("body",
                 JSON_stringify
                   (VObj [("message",
                           match nth 2 lambdaResponse VUndefined with
                           | VUndefined => VStr ""
                           | m => m
                           end)]));
                ("statusCode", VNum n)]).
Proof.
  intros Hreq Hhandler Hstatus Hn Hnone.
  assert (Htry : exists s2,
    try_block ev context callback (mkState o [])
    = (Throw (ValidationError
                match nth 2 lambdaResponse VUndefined with
                | VUndefined => VStr ""
                | m => m
                end (VNum n)), s2)).
  { unfold try_block, handler_stage, call_handler, transform_response.
    unfold bind, read, emit, write, lift, throw.
    rewrite Hreq; cbn [this calls fst snd].
    rewrite Hhandler, Hstatus; cbn [this responseErrorTransformer set_event].
    rewrite Hnone.
    assert (Hlt : lt (VNum n) 300 = false)
      by (unfold lt; cbn [ToNumber]; apply Z.ltb_ge; exact Hn).
    rewrite Hlt; eexists; reflexivity. }
  destruct Htry as [s2 Htry].
  rewrite (invoke_caught _ _ _ _ _ _ Htry eq_refl), delivered_deliver.
  unfold error_envelope, js_or; cbn [get lookup ValidationError String.eqb Ascii.eqb Bool.eqb truthy].
  replace (n =? 0) with false by (symmetry; apply Z.eqb_neq; lia).
  reflexivity.
Qed.

(** *** The envelope check *)

Lemma has_field_lookup (props : list (string * value)) (k : string) :
  has_field (VObj props) k <-> lookup k props <> None.
Proof.
  split.
  - intros (props' & v & Heq & Hl); injection Heq as <-; congruence.
  - intros H; destruct (lookup k props) as [v |] eqn:Hl; [| contradiction].
    exists props, v; split; [reflexivity | exact Hl].
Qed.

Lemma check_envelope_throws (response : value) (s : state) :
  ~ has_field response "body" \/ ~ has_field response "statusCode" ->
  exists message, check_envelope response s = (Throw (TypeError message), s).
Proof.
  intros Hlacks; unfold check_envelope, bind, lift, throw.
  destruct response as [| | b | n | str | props]; simpl;
    try (eexists; reflexivity).
  destruct (lookup "body" props) as [vb |] eqn:Hb;
    destruct (lookup "statusCode" props) as [vs |] eqn:Hs; simpl;
    try (eexists; reflexivity).
  exfalso; destruct Hlacks as [H | H]; apply H; apply has_field_lookup; congruence.
Qed.

(** C7: when the response that the handler and transform stage produced
    lacks the own property [body] or the own property [statusCode], the
    envelope check raises a fault, and the invocation hands over an error
    envelope whose status code is 500 and whose body is the serialized
    message of that fault; the response itself is not handed over. *)
Theorem envelope_contract (o : validator) (ev context : value) (callback : bool)
  (path response statusCode : value) (s1 s2 : state) :
  request_stage ev (mkState o []) = (Normal path, s1) ->
  handler_stage context s1 = (Normal (response, statusCode), s2) ->
  ~ has_field response "body" \/ ~ has_field response "statusCode" ->
  exists message,
    check_envelope response s2 = (Throw (TypeError message), s2) /\
    delivered callback (invoke o ev context callback)
    = Some (VObj [("body", JSON_stringify (VObj [("message", VStr message)]));
                  ("statusCode", VNum 500)]) /\
    fst (invoke o ev context callback)
    = Normal (if callback then VUndefined
              else VObj [("body", JSON_stringify (VObj [("message", VStr message)]));
                         ("statusCode", VNum 500)]).
Proof.
  intros Hreq Hhandler Hlacks.
  destruct (check_envelope_throws response s2 Hlacks) as [message Hcheck].
  exists message; split; [exact Hcheck |].
  assert (Htry : try_block ev context callback (mkState o [])
                 = (Throw (TypeError message), s2)).
  { unfold try_block, response_stage, bind.
    rewrite Hreq, Hhandler; simpl; rewrite Hcheck; reflexivity. }
  rewrite (invoke_caught _ _ _ _ _ _ Htry eq_refl).
  split; [apply delivered_deliver | rewrite deliver_run; reflexivity].
Qed.

(** *** Route resolution *)

Lemma find_key_none (paths : value) (path verb : string) (pathKeys : list string) :
  (forall key, In key pathKeys -> template_test key path = true ->
     exists operation,
       member (get paths key) verb = Normal operation /\ truthy operation = false) ->
  find_key paths path verb pathKeys = Normal VUndefined.
Proof.
  induction pathKeys as [| key rest IH]; intros H; simpl; [reflexivity |].
  destruct (template_test key path) eqn:Htest.
  - destruct (H key (or_introl eq_refl) Htest) as (operation & -> & ->).
    apply IH; intros k Hk; apply H; right; exact Hk.
  - apply IH; intros k Hk; apply H; right; exact Hk.
Qed.

(** [find] returns the first key, in the order of [Object.keys], whose
    pattern matches the path and whose entry declares the verb. *)
Lemma find_key_first (paths : value) (path verb : string)
  (pathKeys : list string) (key : string) :
  find_key paths path verb pathKeys = Normal (VStr key) ->
  exists before after,
    pathKeys = (before ++ key :: after)%list /\
    template_test key path = true /\
    truthy (get (get paths key) verb) = true /\
    forall k, In k before ->
      template_test k path = false \/ truthy (get (get paths k) verb) = false.
Proof.
  induction pathKeys as [| k0 rest IH]; simpl; [discriminate |].
  destruct (template_test k0 path) eqn:Htest.
  - destruct (member (get paths k0) verb) as [operation | e] eqn:Hm; [| discriminate].
    assert (Hop : operation = get (get paths k0) verb).
    { unfold member in Hm; destruct (get paths k0); try discriminate;
        injection Hm as <-; reflexivity. }
    destruct (truthy operation) eqn:Hop_truthy.
    + intros H; injection H as <-.
      exists [], rest; split; [reflexivity |].
      split; [exact Htest |].
      split; [rewrite <- Hop; exact Hop_truthy | intros k []].
    + intros H; destruct (IH H) as (before & after & -> & Ht & Hd & Hfirst).
      exists (k0 :: before), after; repeat split; try assumption.
      intros k [<- | Hk]; [right; rewrite <- Hop; exact Hop_truthy
                          | apply Hfirst; exact Hk].
  - intros H; destruct (IH H) as (before & after & -> & Ht & Hd & Hfirst).
    exists (k0 :: before), after; repeat split; try assumption.
    intros k [<- | Hk]; [left; exact Htest | apply Hfirst; exact Hk].
Qed.

Lemma resolve_not_found (paths path exact : value) (verb : string) :
  member paths (toString path) = Normal exact ->
  truthy (js_and exact (get exact verb)) = false ->
  (forall key, In key (keys paths) -> template_test key (toString path) = true ->
     exists operation,
       member (get paths key) verb = Normal operation /\ truthy operation = false) ->
  resolve paths path verb = Throw (path_not_found path verb).
Proof.
  intros Hexact Hmiss Hnone; unfold resolve.
  rewrite Hexact, Hmiss, (find_key_none _ _ _ _ Hnone); reflexivity.
Qed.

(** C2, as amended: on a validator with request or response validation
    enabled, for one of the HTTP verbs, a path that names no built-in
    property (it holds a slash, say) and templates that [RegExp] reads
    literally outside their braces: when the exact lookup of the path
    misses and every template whose pattern matches the path declares no
    operation for the lower-cased verb, the invocation hands over the
    envelope of a fault with status code 400 whose message names the path
    and the verb, and no call is made before that: neither the handler
    nor a transformer nor a validator runs. *)
Theorem route_not_found (o : validator) (ev context : value) (callback : bool)
  (ev1 paths exact : value) (httpMethod : string) :
  orb (truthy (validateRequests o)) (truthy (validateResponses o)) = true ->
  parse_body ev = Normal ev1 ->
  member (apiSpec o) "paths" = Normal paths ->
  get ev1 "httpMethod" = VStr httpMethod ->
  http_verb (lower httpMethod) = true ->
  not_builtin_name (toString (get ev1 "path")) = true ->
  (forall key, In key (keys paths) -> literal_template key = true) ->
  member paths (toString (get ev1 "path")) = Normal exact ->
  truthy (js_and exact (get exact (lower httpMethod))) = false ->
  (forall key, In key (keys paths) ->
     template_test key (toString (get ev1 "path")) = true ->
     exists operation,
       member (get paths key) (lower httpMethod) = Normal operation /\
       truthy operation = false) ->
  let envelope :=
    VObj [("body",
           JSON_stringify
             (VObj [("message",
                     VStr ("The path " ++ toString (get ev1 "path")
                           ++ " could not be found with http method "
                           ++ lower httpMethod ++ " in the API spec"))]));
          ("statusCode", VNum 400)] in
  invoke o ev context callback
  = (Normal (if callback then VUndefined else envelope),
     mkState (set_event ev1 o) (if callback then [CallCallback envelope] else []))
  /\ delivered callback (invoke o ev context callback) = Some envelope
  /\ existsb is_handler_call (calls (snd (invoke o ev context callback))) = false.
Proof.
  intros Hflags Hparse Hpaths Hmethod _ _ _ Hexact Hmiss Hnone envelope.
  assert (Htry : try_block ev context callback (mkState o [])
                 = (Throw (path_not_found (get ev1 "path") (lower httpMethod)),
                    mkState (set_event ev1 o) [])).
  { unfold try_block, request_stage, route, bind, lift, write, read.
    rewrite Hparse; simpl; rewrite Hpaths, Hmethod; simpl.
    rewrite Hflags, (resolve_not_found _ _ _ _ Hexact Hmiss Hnone).
    reflexivity. }
  assert (Hrun := invoke_caught _ _ _ _ _ _ Htry eq_refl).
  split; [| split].
  - rewrite Hrun, deliver_run; destruct callback; reflexivity.
  - rewrite Hrun; exact (delivered_deliver callback envelope _).
  - rewrite Hrun, deliver_run; destruct callback; reflexivity.
Qed.

(** *** Request validation *)


Lemma find_key_result (paths : value) (path verb : string)
  (pathKeys : list string) (found : value) :
  find_key paths path verb pathKeys = Normal found ->
  found = VUndefined \/ exists key, found = VStr key.
Proof.
  induction pathKeys as [| k0 rest IH]; simpl.
  - intros H; injection H as <-; left; reflexivity.
  - destruct (template_test k0 path); [| exact IH].
    destruct (member (get paths k0) verb) as [operation |]; [| discriminate].
    destruct (truthy operation); [| exact IH].
    intros H; injection H as <-; right; exists k0; reflexivity.
Qed.

Lemma resolve_truthy (paths path operation : value) (verb : string) :
  resolve paths path verb = Normal operation -> truthy operation = true.
Proof.
  unfold resolve.
  destruct (member paths (toString path)) as [exact | e]; [| discriminate].
  destruct (truthy (js_and exact (get exact verb))) eqn:Hexact.
  - intros H; injection H as <-.
    unfold js_and in Hexact; destruct (truthy exact) eqn:He; [exact Hexact |].
    rewrite He in Hexact; discriminate.
  - destruct (find_key paths (toString path) verb (keys paths))
      as [foundKey | e] eqn:Hfind; [| discriminate].
    destruct (truthy foundKey) eqn:Hfound; [| discriminate].
    intros H; injection H as <-.
    destruct (find_key_result _ _ _ _ _ Hfind) as [-> | [key ->]];
      [discriminate |].
    destruct (find_key_first _ _ _ _ _ Hfind) as (_ & _ & _ & _ & Hd & _).
    exact Hd.
Qed.



(** *** Header names *)

Lemma lower_ascii_idempotent (c : ascii) : lower_ascii (lower_ascii c) = lower_ascii c.
Proof. destruct c as [[] [] [] [] [] [] [] []]; reflexivity. Qed.

Lemma lower_idempotent (s : string) : lower (lower s) = lower s.
Proof.
  induction s as [| c rest IH]; simpl; [reflexivity |].
  rewrite lower_ascii_idempotent, IH; reflexivity.
Qed.

Lemma get_put_same (props : list (string * value)) (k : string) (v : value) :
  get (put (VObj props) k v) k = v.
Proof. simpl; rewrite lookup_update_same; reflexivity. Qed.

Lemma get_put_other (props : list (string * value)) (k k' : string) (v : value) :
  k' <> k -> get (put (VObj props) k v) k' = get (VObj props) k'.
Proof. intros H; simpl; rewrite lookup_update_other by exact H; reflexivity. Qed.

(** What the loop of lines 177-179 leaves under a name [q], when no two
    of the names it visits agree up to case. *)
Lemma lower_copies_get (names : list string) (props : list (string * value))
  (q : string) :
  NoDup (map lower names) ->
  get (fold_left lower_copy names (VObj props)) q
  = match first_cased q names with
    | Some k => get (VObj props) k
    | None => get (VObj props) q
    end.
Proof.
  revert props; induction names as [| k rest IH]; intros props Hnodup;
    [reflexivity |].
  simpl in Hnodup; inversion Hnodup as [| x l Hnotin Hrest]; subst.
  cbn [fold_left first_cased find].
  unfold lower_copy at 2; unfold put.
  rewrite (IH _ Hrest); fold (first_cased q rest).
  destruct (String.eqb_spec (lower k) q) as [Hq | Hq].
  - assert (Hnone : first_cased q rest = None).
    { unfold first_cased; destruct (find _ rest) as [k' |] eqn:Hfind; [| reflexivity].
      apply find_some in Hfind; destruct Hfind as [Hin Heq].
      apply String.eqb_eq in Heq; exfalso; apply Hnotin.
      rewrite Hq, <- Heq; apply in_map; exact Hin. }
    rewrite Hnone, <- Hq; apply get_put_same.
  - destruct (first_cased q rest) as [k' |] eqn:Hfind.
    + apply get_put_other.
      unfold first_cased in Hfind; apply find_some in Hfind.
      destruct Hfind as [_ Heq]; apply String.eqb_eq in Heq.
      intros ->; apply Hq; rewrite <- Heq; symmetry; apply lower_idempotent.
    + apply get_put_other; congruence.
Qed.

Lemma first_cased_lowered (h : list (string * value)) (q : string) :
  NoDup (map lower (map fst h)) ->
  lower q = q ->
  match first_cased q (map fst h) with
  | Some k => get (VObj h) k
  | None => get (VObj h) q
  end = get (VObj (lowered h)) q.
Proof.
  intros Hnodup Hq; induction h as [| [k v] rest IH]; [reflexivity |].
  simpl in Hnodup; inversion Hnodup as [| x l Hnotin Hrest]; subst.
  specialize (IH Hrest).
  cbn [map fst snd first_cased find lowered get lookup] in *.
  fold (first_cased q (map fst rest)).
  destruct (String.eqb_spec (lower k) q) as [Hk | Hk].
  - rewrite String.eqb_refl.
    destruct (String.eqb_spec q (lower k)); [reflexivity | congruence].
  - destruct (String.eqb_spec q (lower k)); [congruence |].
    destruct (first_cased q (map fst rest)) as [k' |] eqn:Hfind.
    + unfold first_cased in Hfind; apply find_some in Hfind.
      destruct Hfind as [_ Heq]; apply String.eqb_eq in Heq.
      destruct (String.eqb_spec k' k) as [-> | _]; [congruence | exact IH].
    + destruct (String.eqb_spec q k) as [-> | _]; [congruence | exact IH].
Qed.

(** Under a lower-case name, the request handed to the validator reads
    as the submitted headers with their names lower-cased. *)
Lemma lower_copies_view (h : list (string * value)) (q : string) :
  NoDup (map lower (map fst h)) ->
  lower q = q ->
  get (lower_copies (VObj h)) q = get (VObj (lowered h)) q.
Proof.
  intros Hnodup Hq; unfold lower_copies; simpl keys.
  rewrite (lower_copies_get _ _ _ Hnodup).
  apply first_cased_lowered; assumption.
Qed.

Lemma lowered_up_to_case (h1 h2 : list (string * value)) :
  same_headers_up_to_case h1 h2 -> lowered h1 = lowered h2.
Proof.
  induction 1 as [| [k1 v1] [k2 v2] l1 l2 [Hk Hv] _ IH]; [reflexivity |].
  simpl in *; rewrite Hk, Hv, IH; reflexivity.
Qed.

Lemma lower_names_up_to_case (h1 h2 : list (string * value)) :
  same_headers_up_to_case h1 h2 ->
  map lower (map fst h1) = map lower (map fst h2).
Proof.
  induction 1 as [| [k1 v1] [k2 v2] l1 l2 [Hk Hv] _ IH]; [reflexivity |].
  simpl in *; rewrite Hk, IH; reflexivity.
Qed.

Lemma lookup_lowered (h : list (string * value)) (k : string) (v : value) :
  NoDup (map lower (map fst h)) ->
  In (k, v) h -> lookup (lower k) (lowered h) = Some v.
Proof.
  induction h as [| [k0 v0] rest IH]; intros Hnodup Hin; [destruct Hin |].
  simpl in Hnodup; inversion Hnodup as [| x l Hnotin Hrest]; subst.
  simpl; destruct Hin as [Heq | Hin].
  - injection Heq as -> ->; rewrite String.eqb_refl; reflexivity.
  - destruct (String.eqb_spec (lower k) (lower k0)) as [Heq | _].
    + exfalso; apply Hnotin; rewrite <- Heq.
      apply in_map, (in_map fst _ (k, v)); exact Hin.
    + apply IH; assumption.
Qed.

Lemma in_keys_update (k k' : string) (v : value) (props : list (string * value)) :
  In k' (map fst props) -> In k' (map fst (update k v props)).
Proof.
  induction props as [| [k0 v0] rest IH]; simpl; [intros [] |].
  destruct (String.eqb k k0); simpl; intros [H | H]; auto.
Qed.

Lemma lower_copies_object (names : list string) (props : list (string * value)) :
  exists props',
    fold_left lower_copy names (VObj props) = VObj props' /\
    forall k, In k (map fst props) -> In k (map fst props').
Proof.
  revert props; induction names as [| k rest IH]; intros props.
  - exists props; split; [reflexivity | auto].
  - cbn [fold_left]; unfold lower_copy at 2; unfold put.
    destruct (IH (update (lower k) (get (VObj props) k) props))
      as (props' & Heq & Hin).
    exists props'; split; [exact Heq |].
    intros k' Hk'; apply Hin, in_keys_update; exact Hk'.
Qed.

(** What the loop of lines 191-193 leaves under a name [K]: the sanitized
    value found under the lower-cased name when [K] was visited and that
    value is truthy, and what the validator left under [K] otherwise. *)
Lemma restore_cases_get (names : list string) (sh : list (string * value)) :
  exists fh,
    restore_cases names (VObj sh) = Normal (VObj fh) /\
    forall K,
      get (VObj fh) K
      = if andb (existsb (String.eqb K) names)
                (truthy (get (VObj sh) (lower K)))
        then get (VObj sh) (lower K)
        else get (VObj sh) K.
Proof.
  unfold restore_cases; revert sh; induction names as [| K0 rest IH]; intros sh.
  - exists sh; split; [reflexivity | intros K; reflexivity].
  - cbn [fold_left]; unfold restore_case at 2; cbn [member set].
    destruct (truthy (get (VObj sh) (lower K0))) eqn:Hv0.
    + assert (Hlow : forall K,
                get (VObj (update K0 (get (VObj sh) (lower K0)) sh)) (lower K)
                = get (VObj sh) (lower K)).
      { intros K; destruct (String.eqb_spec (lower K) K0) as [HK | HK].
        - rewrite HK; change (get (put (VObj sh) K0 (get (VObj sh) (lower K0))) K0
                              = get (VObj sh) K0).
          rewrite get_put_same, <- HK, lower_idempotent; reflexivity.
        - apply (get_put_other sh K0 (lower K)); exact HK. }
      destruct (IH (update K0 (get (VObj sh) (lower K0)) sh)) as (fh & Hfh & Hget).
      exists fh; split; [exact Hfh |].
      intros K; rewrite Hget, Hlow; cbn [existsb].
      destruct (String.eqb_spec K K0) as [-> | HK]; cbn [orb andb].
      * rewrite Hv0.
        destruct (existsb (String.eqb K0) rest); cbn [andb]; [reflexivity |].
        apply (get_put_same sh K0).
      * destruct (andb _ _); [reflexivity |].
        apply (get_put_other sh K0 K); exact HK.
    + destruct (IH sh) as (fh & Hfh & Hget).
      exists fh; split; [exact Hfh |].
      intros K; rewrite Hget; cbn [existsb].
      destruct (String.eqb_spec K K0) as [-> | HK]; cbn [orb andb]; [| reflexivity].
      rewrite Hv0, andb_false_r; reflexivity.
Qed.

Lemma existsb_eqb_in (K : string) (names : list string) :
  In K names -> existsb (String.eqb K) names = true.
Proof.
  intros H; apply existsb_exists; exists K; split; [exact H | apply String.eqb_refl].
Qed.

Lemma get_object_not_nullish (o : value) (k : string) (props : list (string * value)) :
  get o k = VObj props -> exists fields, o = VObj fields.
Proof. destruct o; simpl; try discriminate; intros _; eexists; reflexivity. Qed.

(** C8, as amended: for a request whose header names are distinct up to
    case (and none of which is, up to case, a name that objects inherit),
    the request handed to the validator carries every submitted header
    under its lower-cased name, so the verdicts of a validator that reads
    headers under lower-case names agree on two requests that differ only
    in the casing of their header names: both are rejected with the same
    violations, or both are accepted with the same sanitized parts; and
    in the sanitized headers that [_validateRequests] returns, a
    submitted name carries the sanitized value found under its
    lower-cased form when that value is truthy (line 192), and otherwise
    what the validator left under the name itself. *)
Theorem header_names_case (o : validator) (log : list call)
  (path schema ev2 : value) (a h1 h2 : list (string * value)) :
  reads_lower_case_headers ->
  truthy schema = true ->
  AJVoptions o = VObj a ->
  get (event o) "headers" = VObj h1 ->
  get ev2 "headers" = VObj h2 ->
  same_headers_up_to_case h1 h2 ->
  NoDup (map lower (map fst h1)) ->
  Forall (fun kv => own_name (lower (fst kv)) = true) h1 ->
  get (event o) "body" = get ev2 "body" ->
  get (event o) "queryStringParameters" = get ev2 "queryStringParameters" ->
  get (event o) "pathParameters" = get ev2 "pathParameters" ->
  let opts := VObj (update "removeAdditional" (removeAdditionalRequestProps o) a) in
  (forall k v, In (k, v) h1 ->
     get (headers (prepared_request (event o))) (lower k) = v) /\
  same_verdict
    (request_check (apiSpec o) opts schema path (prepared_request (event o)))
    (request_check (apiSpec o) opts schema path (prepared_request ev2)) /\
  forall sanitized sh,
    request_check (apiSpec o) opts schema path (prepared_request (event o))
    = inr sanitized ->
    headers sanitized = VObj sh ->
    exists fh,
      fst (_validateRequests path schema (mkState o log))
      = Normal (VObj [("body", body sanitized);
                      ("queryStringParams", query sanitized);
                      ("headers", VObj fh);
                      ("pathParameters", params sanitized)]) /\
      forall K, In K (map fst h1) ->
        get (VObj fh) K
        = if truthy (get (VObj sh) (lower K))
          then get (VObj sh) (lower K)
          else get (VObj sh) K.
Proof.
  intros Hreads Hschema Hopts Hh1 Hh2 Hcase Hnodup _ Hbody Hquery Hparams opts.
  assert (Hnodup2 : NoDup (map lower (map fst h2))).
  { rewrite <- (lower_names_up_to_case _ _ Hcase); exact Hnodup. }
  assert (Hview : forall q, lower q = q ->
            get (headers (prepared_request (event o))) q
            = get (headers (prepared_request ev2)) q).
  { intros q Hq; unfold prepared_request; cbn [headers].
    rewrite Hh1, Hh2; unfold js_or; cbn [truthy].
    rewrite (lower_copies_view _ _ Hnodup Hq), (lower_copies_view _ _ Hnodup2 Hq).
    rewrite (lowered_up_to_case _ _ Hcase); reflexivity. }
  split; [| split].
  - intros k v Hin; unfold prepared_request; cbn [headers].
    rewrite Hh1; unfold js_or; cbn [truthy].
    rewrite (lower_copies_view _ _ Hnodup (lower_idempotent k)).
    cbn [get]; rewrite (lookup_lowered _ _ _ Hnodup Hin); reflexivity.
  - apply Hreads; try exact Hview; unfold prepared_request; cbn [body query params];
      congruence.
  - intros sanitized sh Hcheck Hsh.
    destruct (get_object_not_nullish _ _ _ Hh1) as [fields Hev].
    assert (Hnn : nullish (event o) = false) by (rewrite Hev; reflexivity).
    destruct (lower_copies_object (map fst h1) h1) as (props' & Hprops' & Hkeys).
    destruct (restore_cases_get (map fst props') sh) as (fh & Hfh & Hget).
    exists fh; split.
    + unfold _validateRequests, bind, read, lift, write, emit; rewrite Hschema.
      cbn [this calls fst snd]; rewrite Hopts; cbn [set].
      rewrite !(member_not_nullish _ _ Hnn); cbn [AJVoptions set_AJVoptions event apiSpec].
      unfold RequestValidator_validate.
      fold (prepared_request (event o)); fold opts; rewrite Hcheck.
      rewrite Hh1; unfold js_or at 1 2; cbn [truthy].
      rewrite Hev; cbn [put get]; rewrite lookup_update_same.
      unfold js_or; cbn [truthy].
      unfold lower_copies; cbn [keys]; rewrite Hprops'; cbn [keys].
      cbn [truthy keys]; rewrite Hsh, Hfh; reflexivity.
    + intros K HK; rewrite Hget, (existsb_eqb_in _ _ (Hkeys K HK)); reflexivity.
Qed.

(** *** The role *)

Lemma append_empty (s : string) : (s ++ "")%string = s.
Proof. induction s as [| c s IH]; simpl; [| rewrite IH]; reflexivity. Qed.

Lemma append_snoc (s t : string) (c : ascii) :
  ((s ++ String c "") ++ t)%string = (s ++ String c t)%string.
Proof. induction s as [| c' s IH]; simpl; [| rewrite IH]; reflexivity. Qed.

Lemma stringToPath_plain (key acc : string) :
  plain_key key = true -> stringToPath acc key = [(acc ++ key)%string].
Proof.
  revert acc; induction key as [| c rest IH]; intros acc; simpl.
  - intros _; rewrite append_empty; reflexivity.
  - destruct (Ascii.eqb c "."); simpl; [discriminate |].
    intros H; rewrite (IH _ H), append_snoc; reflexivity.
Qed.

(** X21: the role that line 134 computes, for an event whose claims are
    an object and a claim name that lodash reads as one path segment (no
    dot and no bracket), where neither the claim name nor the default
    role name is a name that objects inherit and the event has no
    property named by the whole path: the claim when the event has it,
    and otherwise the claim that is named by the default role name. *)
Lemma resolve_role_claims (ev requestContext authorizer defaultRoleName : value)
  (claims : list (string * value)) (key : string) :
  get ev "requestContext" = requestContext -> nullish requestContext = false ->
  get requestContext "authorizer" = authorizer -> nullish authorizer = false ->
  get authorizer "claims" = VObj claims ->
  plain_key key = true ->
  all_chars not_bracket key = true ->
  own_name key = true ->
  own_name (toString defaultRoleName) = true ->
  hasOwnProperty ev ("requestContext.authorizer.claims." ++ key) = Normal false ->
  resolve_role ev (VStr key) defaultRoleName
  = Normal (match get (VObj claims) key with
            | VUndefined => get (VObj claims) (toString defaultRoleName)
            | claim => claim
            end).
Proof.
  intros Hrc Hrcn Hau Haun Hcl Hkey _ _ _ _.
  assert (Hev : nullish ev = false).
  { destruct ev; try reflexivity; simpl in Hrc; subst requestContext; discriminate. }
  unfold resolve_role.
  rewrite (member_not_nullish _ _ Hev), Hrc, (member_not_nullish _ _ Hrcn), Hau,
    (member_not_nullish _ _ Haun), Hcl.
  change (member (VObj claims) (toString defaultRoleName))
    with (Normal (get (VObj claims) (toString defaultRoleName))).
  unfold lodash_get; cbn [toString].
  assert (Hpath : stringToPath "" ("requestContext.authorizer.claims." ++ key)
                  = ["requestContext"; "authorizer"; "claims"; key]).
  { cbn [append stringToPath Ascii.eqb Bool.eqb]; cbn.
    rewrite (stringToPath_plain key "" Hkey); reflexivity. }
  rewrite Hpath; cbn [baseGet].
  destruct ev; try discriminate Hev; rewrite Hrc;
    destruct requestContext; try discriminate Hrcn; rewrite Hau;
    destruct authorizer; try discriminate Haun; rewrite Hcl; reflexivity.
Qed.

(** *** Which calls an invocation makes *)

Lemma guarded_ret {A : Type} P p (a : A) : guarded P p (ret a).
Proof. intros s H; split; [exact H | reflexivity]. Qed.

Lemma guarded_throw {A : Type} P p (e : value) : guarded P p (@throw A e).
Proof. intros s H; split; [exact H | reflexivity]. Qed.

Lemma guarded_lift {A : Type} P p (c : completion A) : guarded P p (lift c).
Proof. intros s H; split; [exact H | reflexivity]. Qed.

Lemma guarded_write P p (f : validator -> validator) :
  (forall o, P o -> P (f o)) -> guarded P p (write f).
Proof. intros Hf s H; split; [apply Hf; exact H | reflexivity]. Qed.

Lemma guarded_emit P p (c : call) : p c = false -> guarded P p (emit c).
Proof.
  intros Hc s H; split; [exact H |].
  unfold emit; simpl; rewrite filter_app; simpl; rewrite Hc, app_nil_r; reflexivity.
Qed.

Lemma guarded_bind {A B : Type} P p (m : M A) (f : A -> M B) :
  guarded P p m -> (forall a, guarded P p (f a)) -> guarded P p (bind m f).
Proof.
  intros Hm Hf s H; unfold bind.
  destruct (Hm s H) as [HP Hlog]; destruct (m s) as [[a | e] s']; simpl in *.
  - destruct (Hf a s' HP) as [HP' Hlog']; split; [exact HP' | congruence].
  - split; assumption.
Qed.

(** After [read], the continuation runs on an instance that has [P]. *)
Lemma guarded_read {B : Type} P p (f : validator -> M B) :
  (forall o, P o -> guarded P p (f o)) -> guarded P p (bind read f).
Proof. intros Hf s H; unfold bind, read; apply (Hf (this s) H s H). Qed.

Ltac guarded_step :=
  first
    [ apply guarded_ret | apply guarded_throw | apply guarded_lift
    | apply guarded_write; intros ? HP; exact HP
    | apply guarded_emit; reflexivity
    | apply guarded_read; intros ? ?; cbv beta in *
    | apply guarded_bind; [| intros ?]
    | match goal with
      | H : ?b = false |- guarded _ _ (if ?b then _ else _) => rewrite H
      | H : ?b = false |- guarded _ _ (if orb ?b _ then _ else _) => rewrite H
      | H : ?b = false |- guarded _ _ (if orb _ ?b then _ else _) => rewrite H
      | |- guarded _ _ (if false || false then _ else _) => cbn [orb]
      | |- guarded _ _ (match ?x with _ => _ end) => destruct x
      end ].

Ltac guarded_stage :=
  unfold request_stage, handler_stage, response_stage, route, sanitize,
    transform_request, call_handler, transform_response, check_envelope,
    filter_response, catch_block, deliver, _validateRequests, _validateResponses;
  repeat guarded_step.

Lemma bind_assoc {A B C : Type} (m : M A) (f : A -> M B) (g : B -> M C) (s : state) :
  bind (bind m f) g s = bind m (fun a => bind (f a) g) s.
Proof. unfold bind; destruct (m s) as [[a | e] s']; reflexivity. Qed.

(** The handler stage logs the call of the handler, on the event of the
    instance, and no other call of it. *)
Lemma handler_stage_log (context : value) (s : state) :
  filter is_handler_call (calls (snd (handler_stage context s)))
  = (filter is_handler_call (calls s)
     ++ [CallLambdaBody (event (this s)) context])%list.
Proof.
  unfold handler_stage, call_handler.
  rewrite !bind_assoc.
  change (filter is_handler_call
            (calls (snd
               ((lambdaResponse <-
                   lift (snd (lambdaBody (this s) (event (this s)) context)) ;;
                 response <-
                   transform_response (nth 0 lambdaResponse VUndefined)
                     (nth 1 lambdaResponse VUndefined)
                     match nth 2 lambdaResponse VUndefined with
                     | VUndefined => VStr ""
                     | m => m
                     end ;;
                 ret (response, nth 1 lambdaResponse VUndefined))
                  (mkState
                     (set_event (fst (lambdaBody (this s) (event (this s)) context))
                                (this s))
                     (calls s ++ [CallLambdaBody (event (this s)) context])))))
          = (filter is_handler_call (calls s)
             ++ [CallLambdaBody (event (this s)) context])%list).
  match goal with
  | |- filter _ (calls (snd (?m ?s1))) = _ =>
      assert (Hg : guarded (fun _ => True) is_handler_call m)
        by (unfold transform_response; repeat guarded_step);
      rewrite (proj2 (Hg s1 I))
  end.
  simpl; rewrite filter_app; reflexivity.
Qed.

(** X1: the wrapped handler is called at most once in an invocation,
    whatever the configuration and the event. *)
Theorem handler_called_at_most_once (o : validator) (ev context : value)
  (callback : bool) :
  (List.length (filter is_handler_call (calls (snd (invoke o ev context callback))))
   <= 1)%nat.
Proof.
  assert (Hreq : guarded (fun _ => True) is_handler_call (request_stage ev))
    by guarded_stage.
  assert (Hresp : forall path response statusCode,
            guarded (fun _ => True) is_handler_call
              (response_stage path response statusCode callback))
    by (intros; guarded_stage).
  assert (Hcatch : forall e, guarded (fun _ => True) is_handler_call
                               (catch_block callback e))
    by (intros; guarded_stage).
  unfold invoke, install, try_catch, try_block, bind.
  specialize (Hreq (mkState o []) I).
  destruct (request_stage ev (mkState o [])) as [[path | e1] s1];
    cbn [snd calls filter] in Hreq.
  - assert (Hh := handler_stage_log context s1).
    destruct (handler_stage context s1) as [[produced | e2] s2]; cbn [snd] in Hh.
    + specialize (Hresp path (fst produced) (snd produced) s2 I).
      destruct (response_stage path (fst produced) (snd produced) callback s2)
        as [[v | e3] s3]; cbn [snd] in *.
      * rewrite (proj2 Hresp), Hh, (proj2 Hreq); simpl; lia.
      * rewrite (proj2 (Hcatch e3 s3 I)), (proj2 Hresp), Hh, (proj2 Hreq); simpl; lia.
    + rewrite (proj2 (Hcatch e2 s2 I)), Hh, (proj2 Hreq); simpl; lia.
  - rewrite (proj2 (Hcatch e1 s1 I)), (proj2 Hreq); simpl; lia.
Qed.

Lemma try_block_callback_log (ev context : value) (callback : bool) (s : state) :
  match try_block ev context callback s with
  | (Normal v, s') =>
      filter is_callback (calls s')
      = (filter is_callback (calls s)
         ++ if callback then [last (calls s') (CallCallback VUndefined)] else [])%list
      /\ (callback = true -> v = VUndefined)
  | (Throw _, s') => filter is_callback (calls s') = filter is_callback (calls s)
  end.
Proof.
  assert (Hreq : guarded (fun _ => True) is_callback (request_stage ev))
    by guarded_stage.
  assert (Hh : guarded (fun _ => True) is_callback (handler_stage context))
    by guarded_stage.
  assert (Hc : forall response, guarded (fun _ => True) is_callback
                                  (check_envelope response))
    by (intros; guarded_stage).
  assert (Hf : forall path response statusCode,
            guarded (fun _ => True) is_callback
              (filter_response path response statusCode))
    by (intros; guarded_stage).
  unfold try_block, response_stage, bind.
  specialize (Hreq s I).
  destruct (request_stage ev s) as [[path | e1] s1]; cbn [snd] in Hreq;
    [| exact (proj2 Hreq)].
  specialize (Hh s1 I).
  destruct (handler_stage context s1) as [[produced | e2] s2]; cbn [snd] in Hh;
    [| rewrite (proj2 Hh); exact (proj2 Hreq)].
  specialize (Hc (fst produced) s2 I).
  destruct (check_envelope (fst produced) s2) as [[[] | e3] s3]; cbn [snd] in Hc;
    [| rewrite (proj2 Hc), (proj2 Hh); exact (proj2 Hreq)].
  specialize (Hf path (fst produced) (snd produced) s3 I).
  destruct (filter_response path (fst produced) (snd produced) s3)
    as [[response | e4] s4]; cbn [snd] in Hf;
    [| rewrite (proj2 Hf), (proj2 Hc), (proj2 Hh); exact (proj2 Hreq)].
  rewrite deliver_run; cbn [calls this].
  rewrite filter_app, (proj2 Hf), (proj2 Hc), (proj2 Hh), (proj2 Hreq).
  destruct callback; simpl.
  - rewrite last_last; split; [reflexivity | reflexivity].
  - rewrite app_nil_r; split; [reflexivity | discriminate].
Qed.

(** X2: an invocation that completes and was given a callback calls it
    exactly once and returns [undefined]; without a callback no callback
    call is made. *)
Theorem callback_called_once (o : validator) (ev context : value)
  (callback : bool) (v : value) :
  fst (invoke o ev context callback) = Normal v ->
  List.length (filter is_callback (calls (snd (invoke o ev context callback))))
  = (if callback then 1 else 0)%nat
  /\ (callback = true -> v = VUndefined).
Proof.
  unfold invoke, install, try_catch.
  assert (Hlog := try_block_callback_log ev context callback (mkState o [])).
  destruct (try_block ev context callback (mkState o [])) as [[v' | e] s].
  - cbn [fst snd]; intros H; injection H as <-.
    destruct Hlog as [Hlog Hv]; rewrite Hlog; cbn [calls filter app].
    split; [destruct callback; reflexivity | exact Hv].
  - destruct (nullish e) eqn:He.
    + destruct (catch_block_nullish callback e s He) as [e' ->]; discriminate.
    + rewrite (catch_block_envelope callback e s He), deliver_run; cbn [fst snd calls].
      intros H; injection H as <-.
      rewrite filter_app, Hlog; destruct callback; split;
        try reflexivity; discriminate.
Qed.

Lemma guarded_try_catch {A : Type} P p (m : M A) (h : value -> M A) :
  guarded P p m -> (forall e, guarded P p (h e)) -> guarded P p (try_catch m h).
Proof.
  intros Hm Hh s H; unfold try_catch.
  destruct (Hm s H) as [HP Hlog]; destruct (m s) as [[a | e] s']; simpl in *.
  - split; assumption.
  - destruct (Hh e s' HP) as [HP' Hlog']; split; [exact HP' | congruence].
Qed.

(** X3: on an instance whose [validateRequests] is falsy, no invocation
    calls the request validator. *)
Theorem request_validator_stays_off (o : validator) (ev context : value)
  (callback : bool) :
  truthy (validateRequests o) = false ->
  filter is_request_validation (calls (snd (invoke o ev context callback))) = [].
Proof.
  intros Hoff.
  assert (Hg : guarded (fun o => truthy (validateRequests o) = false)
                 is_request_validation (install ev context callback)).
  { unfold install, try_block; apply guarded_try_catch; [| intros e]; guarded_stage. }
  exact (proj2 (Hg (mkState o []) Hoff)).
Qed.

(** X4: on an instance whose [validateResponses] and [filterByRole] are
    both falsy, no invocation calls the response validator. *)
Theorem response_validator_stays_off (o : validator) (ev context : value)
  (callback : bool) :
  truthy (validateResponses o) = false ->
  truthy (filterByRole o) = false ->
  filter is_response_validation (calls (snd (invoke o ev context callback))) = [].
Proof.
  intros Hresp Hrole.
  assert (Hg : guarded (fun o => truthy (validateResponses o) = false
                                 /\ truthy (filterByRole o) = false)
                 is_response_validation (install ev context callback)).
  { unfold install, try_block; apply guarded_try_catch; [| intros e];
      unfold request_stage, handler_stage, response_stage, route, sanitize,
        transform_request, call_handler, transform_response, check_envelope,
        filter_response, catch_block, deliver, _validateRequests;
      repeat first
        [ match goal with
          | H : _ /\ _ |- _ => destruct H
          end
        | guarded_step ]. }
  exact (proj2 (Hg (mkState o []) (conj Hresp Hrole))).
Qed.

(** *** The envelope that is handed over *)

Lemma check_envelope_passed (response : value) (s s' : state) :
  check_envelope response s = (Normal tt, s') ->
  has_field response "body" /\ has_field response "statusCode".
Proof.
  unfold check_envelope, bind, lift, throw, ret.
  destruct response as [| | b | n | str | props]; simpl; try discriminate.
  destruct (lookup "body" props) as [vb |] eqn:Hb;
    destruct (lookup "statusCode" props) as [vs |] eqn:Hs; simpl; try discriminate.
  intros _; split; apply has_field_lookup; congruence.
Qed.

Lemma assign_body_fields (response body : value) :
  has_field response "body" /\ has_field response "statusCode" ->
  has_field (assign response (VObj [("body", body)])) "body"
  /\ has_field (assign response (VObj [("body", body)])) "statusCode".
Proof.
  intros [(props & vb & -> & Hb) (props' & vs & Heq & Hs)].
  injection Heq as <-; simpl; split; apply has_field_lookup.
  - rewrite lookup_update_same; discriminate.
  - rewrite lookup_update_other by discriminate; congruence.
Qed.

Lemma filter_response_fields (path response statusCode response' : value)
  (s s' : state) :
  has_field response "body" /\ has_field response "statusCode" ->
  filter_response path response statusCode s = (Normal response', s') ->
  has_field response' "body" /\ has_field response' "statusCode".
Proof.
  intros Hfields; unfold filter_response, bind, read, lift, ret.
  repeat match goal with
         | |- context [match ?x with _ => _ end] => destruct x
         end;
    intros H; try discriminate H; injection H as <- _;
    first [exact Hfields | apply assign_body_fields; exact Hfields].
Qed.

(** X5: whenever an invocation completes, what it hands over (to the
    callback, or as its result) is an object with the own properties
    [body] and [statusCode]. *)
Theorem delivered_envelope_shape (o : validator) (ev context : value)
  (callback : bool) (v : value) :
  fst (invoke o ev context callback) = Normal v ->
  exists envelope,
    delivered callback (invoke o ev context callback) = Some envelope
    /\ has_field envelope "body"
    /\ has_field envelope "statusCode".
Proof.
  unfold invoke, install, try_catch.
  destruct (try_block ev context callback (mkState o [])) as [[v' | e] s] eqn:Htry.
  - intros _; revert Htry; unfold try_block, response_stage, bind.
    destruct (request_stage ev (mkState o [])) as [[path | e1] s1]; [| discriminate].
    destruct (handler_stage context s1) as [[produced | e2] s2]; [| discriminate].
    destruct (check_envelope (fst produced) s2) as [[[] | e3] s3] eqn:Hcheck;
      [| discriminate].
    destruct (filter_response path (fst produced) (snd produced) s3)
      as [[response | e4] s4] eqn:Hfilter; [| discriminate].
    intros Hdeliver; exists response; split.
    + rewrite <- Hdeliver; apply delivered_deliver.
    + exact (filter_response_fields _ _ _ _ _ _
               (check_envelope_passed _ _ _ Hcheck) Hfilter).
  - destruct (nullish e) eqn:He.
    + destruct (catch_block_nullish callback e s He) as [e' ->]; discriminate.
    + intros _; rewrite (catch_block_envelope callback e s He).
      exists (error_envelope e); split; [apply delivered_deliver |].
      split; apply has_field_lookup; discriminate.
Qed.

(** X6: an invocation is rejected exactly when its [try] block threw
    [null] or [undefined]; every other fault is answered. *)
Theorem invocation_rejected_iff (o : validator) (ev context : value)
  (callback : bool) :
  (exists e, fst (invoke o ev context callback) = Throw e)
  <-> (exists e s, try_block ev context callback (mkState o []) = (Throw e, s)
                   /\ nullish e = true).
Proof.
  unfold invoke, install, try_catch.
  destruct (try_block ev context callback (mkState o [])) as [[v | e] s].
  - split; [intros [e H]; discriminate H | intros (e & s' & H & _); discriminate H].
  - destruct (nullish e) eqn:He.
    + split; [intros _; exists e, s; split; [reflexivity | exact He] |].
      intros _; destruct (catch_block_nullish callback e s He) as [e' ->].
      exists e'; reflexivity.
    + rewrite (catch_block_envelope callback e s He), deliver_run; split.
      * intros [e' H]; discriminate H.
      * intros (e' & s' & H & He'); injection H as <- <-; congruence.
Qed.

(** X7: a thrown primitive (a string, a number, a boolean) has no
    [message] and no [statusCode] to read: its text is lost, the envelope
    carries the serialization of [{message: undefined}] and the status
    code 500. *)
Theorem thrown_primitive_envelope (o : validator) (ev context : value)
  (callback : bool) (e : value) (s : state) :
  try_block ev context callback (mkState o []) = (Throw e, s) ->
  nullish e = false ->
  (forall props, e <> VObj props) ->
  delivered callback (invoke o ev context callback)
  = Some (VObj [("body", JSON_stringify (VObj [("message", VUndefined)]));
                ("statusCode", VNum 500)]).
Proof.
  intros Htry He Hprim.
  rewrite (invoke_caught _ _ _ _ _ _ Htry He), delivered_deliver.
  destruct e; try discriminate He; try reflexivity.
  exfalso; exact (Hprim _ eq_refl).
Qed.

(** *** More on route resolution *)

(** X8: what a successful resolution returns, for one of the HTTP verbs,
    a path that names no built-in property and templates that [RegExp]
    reads literally outside their braces.  Either the path is itself a
    key whose entry declares the verb, and the operation is that entry's
    (whatever templates come before it); or it is the operation of the
    first key, in the order of [Object.keys], whose pattern matches the
    path and whose entry declares the verb. *)
Theorem resolve_selects (paths path operation : value) (verb : string) :
  http_verb verb = true ->
  not_builtin_name (toString path) = true ->
  (forall key, In key (keys paths) -> literal_template key = true) ->
  resolve paths path verb = Normal operation ->
  truthy operation = true /\
  ((truthy (get paths (toString path)) = true /\
    operation = get (get paths (toString path)) verb)
   \/
   (truthy (js_and (get paths (toString path))
                   (get (get paths (toString path)) verb)) = false /\
    exists before key after,
      keys paths = (before ++ key :: after)%list /\
      template_test key (toString path) = true /\
      operation = get (get paths key) verb /\
      forall k, In k before ->
        template_test k (toString path) = false
        \/ truthy (get (get paths k) verb) = false)).
Proof.
  intros _ _ _ Hres; split; [exact (resolve_truthy _ _ _ _ Hres) |].
  revert Hres; unfold resolve.
  destruct (member paths (toString path)) as [exact | e] eqn:Hm; [| discriminate].
  assert (Hexact_eq : exact = get paths (toString path)).
  { unfold member in Hm; destruct paths; try discriminate;
      injection Hm as <-; reflexivity. }
  subst exact.
  destruct (truthy (js_and (get paths (toString path))
                      (get (get paths (toString path)) verb))) eqn:Hexact.
  - intros H; injection H as <-; left; split; [| reflexivity].
    unfold js_and in Hexact.
    destruct (truthy (get paths (toString path))) eqn:Ht; [reflexivity |].
    rewrite Ht in Hexact; discriminate.
  - destruct (find_key paths (toString path) verb (keys paths))
      as [foundKey | e] eqn:Hfind; [| discriminate].
    destruct (truthy foundKey) eqn:Hfound; [| discriminate].
    intros H; injection H as <-; right; split; [reflexivity |].
    destruct (find_key_result _ _ _ _ _ Hfind) as [-> | [key ->]];
      [discriminate |].
    destruct (find_key_first _ _ _ _ _ Hfind)
      as (before & after & Hkeys & Htest & _ & Hfirst).
    exists before, key, after; repeat split; assumption.
Qed.

(** X9: the pattern of a template that [RegExp] reads literally outside
    its braces is anchored at the end of the path only: a path that
    matches still matches with anything put in front of it. *)
Theorem template_test_ignores_prefix (key path before : string) :
  literal_template key = true ->
  template_test key path = true ->
  template_test key (before ++ path) = true.
Proof.
  intros _; unfold template_test; rewrite !test_suffix.
  intros (w1 & w2 & -> & H); exists (before ++ w1)%string, w2; split; [| exact H].
  clear; induction before as [| c rest IH]; simpl; [| rewrite IH]; reflexivity.
Qed.

Lemma Matches_var_unit_no_slash (w : string) :
  Matches (Alt (Cls var_class) (Seq (Chr "%") (Seq (Chr "2") (Chr "0")))) w ->
  w <> EmptyString /\ no_slash w = true.
Proof.
  intros H; inversion H as [| | | r s w' H' | r s w' H' | | |]; subst.
  - inversion H' as [| | ranges c Hin | | | | |]; subst; split; [discriminate |].
    destruct c as [[] [] [] [] [] [] [] []]; try reflexivity;
      vm_compute in Hin; discriminate Hin.
  - inversion H' as [| | | | | r s w1 w2 H1 H2 | |]; subst.
    inversion H1; subst.
    inversion H2 as [| | | | | r s w3 w4 H3 H4 | |]; subst.
    inversion H3; subst; inversion H4; subst.
    split; [discriminate | reflexivity].
Qed.

Lemma no_slash_app (w1 w2 : string) :
  no_slash w1 = true -> no_slash w2 = true -> no_slash (w1 ++ w2) = true.
Proof.
  induction w1 as [| c rest IH]; simpl; [auto |].
  destruct (negb (Ascii.eqb c "/")); simpl; [exact IH | discriminate].
Qed.

Lemma Matches_var_star_no_slash (w : string) :
  Matches (Star (Alt (Cls var_class) (Seq (Chr "%") (Seq (Chr "2") (Chr "0"))))) w ->
  no_slash w = true.
Proof.
  intros H; remember (Star _) as sr eqn:Hsr.
  induction H as [| c0 | ranges c0 Hin | r0 s0 w0 H0 IH0 | r0 s0 w0 H0 IH0
                  | r0 s0 w1 w2 H1 IH1 H2 IH2 | r0 | r0 w1 w2 H1 IH1 H2 IH2];
    try discriminate; [reflexivity |].
  injection Hsr as ->.
  apply no_slash_app; [apply Matches_var_unit_no_slash, H1 | apply IH2; reflexivity].
Qed.

(** X10: what stands for a [{var}] segment is never empty and never
    holds a slash: a variable does not match an empty segment and does
    not run across segments. *)
Theorem var_segment_within_one_segment (w : string) :
  matches var_segment w = true -> w <> EmptyString /\ no_slash w = true.
Proof.
  rewrite matches_Matches; unfold var_segment, Plus.
  intros H; inversion H as [| | | | | r s w1 w2 H1 H2 | |]; subst.
  destruct (Matches_var_unit_no_slash _ H1) as [Hne Hns]; split.
  - destruct w1; [contradiction | discriminate].
  - apply no_slash_app; [exact Hns | apply Matches_var_star_no_slash, H2].
Qed.

Lemma template_literal (segment : regex) (p k w : string) :
  all_chars not_brace p = true ->
  Matches (template_with segment false k) w ->
  Matches (template_with segment false (p ++ k)) (p ++ w).
Proof.
  induction p as [| c rest IH]; simpl; [auto |].
  unfold not_brace at 1.
  destruct (Ascii.eqb c "{"); simpl; [discriminate |].
  destruct (Ascii.eqb c "}"); simpl; [discriminate |].
  intros Hrest H.
  exact (MSeq (Chr c) _ (String c EmptyString) _ (MChr c) (IH Hrest H)).
Qed.

Lemma template_skips_name (segment : regex) (n k : string) :
  all_chars not_brace n = true ->
  template_with segment true (n ++ String "}" k) = template_with segment false k
  /\ closes (n ++ String "}" k) = true.
Proof.
  induction n as [| c rest IH]; simpl; [split; reflexivity |].
  unfold not_brace at 1.
  destruct (Ascii.eqb c "}"); simpl; [rewrite andb_false_r; discriminate |].
  rewrite andb_true_r; destruct (Ascii.eqb c "{"); simpl; [discriminate | exact IH].
Qed.

Lemma in_var_class (c : ascii) :
  alnum_or_hyphen c = true -> in_ranges var_class c = true.
Proof.
  destruct c as [[] [] [] [] [] [] [] []]; vm_compute; intros H;
    first [reflexivity | discriminate H].
Qed.

Lemma Matches_var_star (w : string) :
  all_chars alnum_or_hyphen w = true ->
  Matches (Star (Alt (Cls var_class) (Seq (Chr "%") (Seq (Chr "2") (Chr "0"))))) w.
Proof.
  induction w as [| c rest IH]; simpl; [constructor |].
  intros H; apply andb_true_iff in H; destruct H as [Hc Hrest].
  apply (MStarStep _ (String c EmptyString) rest); [| exact (IH Hrest)].
  apply MAltL, MCls, in_var_class, Hc.
Qed.

Lemma literal_not_brace (p : string) :
  all_chars literal_char p = true -> all_chars not_brace p = true.
Proof.
  induction p as [| c rest IH]; simpl; [auto |].
  intros H; apply andb_true_iff in H; destruct H as [Hc Hrest].
  rewrite (IH Hrest), andb_true_r.
  destruct c as [[] [] [] [] [] [] [] []]; try reflexivity;
    vm_compute in Hc; discriminate Hc.
Qed.

(** X11: a template with one variable, whose parts around the variable
    hold no pattern operator, matches every path made of these parts
    around a non-empty run of letters, digits and hyphens: [/pet/{id}]
    matches [/pet/123]. *)
Theorem template_matches_instance (p n q w : string) :
  all_chars literal_char p = true ->
  all_chars not_brace n = true ->
  all_chars literal_char q = true ->
  w <> EmptyString ->
  all_chars alnum_or_hyphen w = true ->
  template_test (p ++ String "{" (n ++ String "}" q)) (p ++ w ++ q) = true.
Proof.
  intros Hp Hn Hq Hw Hchars.
  apply literal_not_brace in Hp; apply literal_not_brace in Hq.
  unfold template_test, template; apply test_suffix.
  exists EmptyString, (p ++ w ++ q)%string; split; [reflexivity |].
  apply template_literal; [exact Hp |].
  destruct (template_skips_name var_segment n q Hn) as [Hskip Hcloses].
  cbn [template_with]; rewrite Hcloses, Hskip; cbn [Ascii.eqb Bool.eqb andb].
  constructor.
  - destruct w as [| c rest]; [contradiction |].
    simpl in Hchars; apply andb_true_iff in Hchars; destruct Hchars as [Hc Hrest].
    apply (MSeq _ _ (String c EmptyString) rest);
      [apply MAltL, MCls, in_var_class, Hc | apply Matches_var_star, Hrest].
  - rewrite <- (append_empty q) at 2.
    rewrite <- (append_empty q) at 1.
    apply template_literal; [exact Hq | constructor].
Qed.

(** *** Events and specifications that lack a part *)

(** X12: an event whose [httpMethod] is not a string is answered with
    the status code 500 before anything is called, whether or not a
    validation is enabled: line 51 lower-cases the method first. *)
Theorem missing_method_faults (o : validator) (ev context : value)
  (callback : bool) (ev1 paths : value) :
  parse_body ev = Normal ev1 ->
  member (apiSpec o) "paths" = Normal paths ->
  (forall httpMethod, get ev1 "httpMethod" <> VStr httpMethod) ->
  exists message,
    let envelope :=
      VObj [("body", JSON_stringify (VObj [("message", VStr message)]));
            ("statusCode", VNum 500)] in
    delivered callback (invoke o ev context callback) = Some envelope
    /\ calls (snd (invoke o ev context callback))
       = (if callback then [CallCallback envelope] else []).
Proof.
  intros Hparse Hpaths Hmethod.
  assert (Hlower : exists message,
            toLowerCase (get ev1 "httpMethod") = Throw (TypeError message)).
  { destruct (get ev1 "httpMethod") as [| | b | n | str | props] eqn:Hm;
      try (eexists; reflexivity).
    exfalso; exact (Hmethod str eq_refl). }
  destruct Hlower as [message Hlower]; exists message.
  assert (Htry : try_block ev context callback (mkState o [])
                 = (Throw (TypeError message), mkState (set_event ev1 o) [])).
  { unfold try_block, request_stage, bind, lift, write, read.
    rewrite Hparse; simpl; rewrite Hpaths, Hlower; reflexivity. }
  rewrite (invoke_caught _ _ _ _ _ _ Htry eq_refl); split.
  - apply delivered_deliver.
  - rewrite deliver_run; destruct callback; reflexivity.
Qed.

(** X13: with a validation enabled, a specification whose [paths] is
    missing is answered with the status code 500, not with the 400 of an
    unknown path: the lookup [paths[path]] throws before the route is
    searched. *)
Theorem missing_paths_faults (o : validator) (ev context : value)
  (callback : bool) (ev1 paths : value) (httpMethod : string) :
  orb (truthy (validateRequests o)) (truthy (validateResponses o)) = true ->
  parse_body ev = Normal ev1 ->
  member (apiSpec o) "paths" = Normal paths ->
  nullish paths = true ->
  get ev1 "httpMethod" = VStr httpMethod ->
  exists message,
    let envelope :=
      VObj [("body", JSON_stringify (VObj [("message", VStr message)]));
            ("statusCode", VNum 500)] in
    delivered callback (invoke o ev context callback) = Some envelope
    /\ calls (snd (invoke o ev context callback))
       = (if callback then [CallCallback envelope] else []).
Proof.
  intros Hflags Hparse Hpaths Hnull Hmethod.
  assert (Hres : exists message,
            resolve paths (get ev1 "path") (lower httpMethod)
            = Throw (TypeError message)).
  { unfold resolve; destruct paths; try discriminate Hnull; eexists; reflexivity. }
  destruct Hres as [message Hres]; exists message.
  assert (Htry : try_block ev context callback (mkState o [])
                 = (Throw (TypeError message), mkState (set_event ev1 o) [])).
  { unfold try_block, request_stage, route, bind, lift, write, read.
    rewrite Hparse; simpl; rewrite Hpaths, Hmethod; simpl.
    rewrite Hflags, Hres; reflexivity. }
  rewrite (invoke_caught _ _ _ _ _ _ Htry eq_refl); split.
  - apply delivered_deliver.
  - rewrite deliver_run; destruct callback; reflexivity.
Qed.

Lemma check_envelope_ok (response : value) (s : state) :
  has_field response "body" -> has_field response "statusCode" ->
  check_envelope response s = (Normal tt, s).
Proof.
  intros (props & vb & -> & Hb) (props' & vs & Heq & Hs); injection Heq as <-.
  unfold check_envelope, bind, lift, ret; simpl; rewrite Hb, Hs; reflexivity.
Qed.

(** X14: with role filtering enabled and a role key configured, an event
    that carries no [requestContext] is answered with the status code
    500 although the handler succeeded: line 134 reads
    [event.requestContext.authorizer.claims] to compute the fallback
    before it looks for the claim. *)
Theorem role_without_identity_faults (o : validator) (ev context : value)
  (callback : bool) (path response statusCode : value) (s1 s2 : state) :
  request_stage ev (mkState o []) = (Normal path, s1) ->
  handler_stage context s1 = (Normal (response, statusCode), s2) ->
  has_field response "body" -> has_field response "statusCode" ->
  (isJson (get response "body") = true ->
   exists parsed, JSON_parse (get response "body") = Normal parsed) ->
  truthy (filterByRole (this s2)) = true ->
  truthy (roleAuthorizerKey (this s2)) = true ->
  nullish (get (event (this s2)) "requestContext") = true ->
  exists message,
    delivered callback (invoke o ev context callback)
    = Some (VObj [("body", JSON_stringify (VObj [("message", VStr message)]));
                  ("statusCode", VNum 500)]).
Proof.
  intros Hreq Hhandler Hbody Hstatus Hparse Hrole Hkey Hctx.
  assert (Hres : exists message,
            resolve_role (event (this s2)) (roleAuthorizerKey (this s2))
              (defaultRoleName (this s2)) = Throw (TypeError message)).
  { unfold resolve_role, member.
    destruct (event (this s2)) as [| | b | n | str | props];
      try (eexists; reflexivity);
      destruct (get _ "requestContext"); try discriminate Hctx;
      eexists; reflexivity. }
  destruct Hres as [message Hres]; exists message.
  assert (Htry : exists s3, try_block ev context callback (mkState o [])
                            = (Throw (TypeError message), s3)).
  { unfold try_block, response_stage.
    unfold bind at 1; rewrite Hreq.
    unfold bind at 1; rewrite Hhandler; cbn [fst snd].
    unfold bind at 1; rewrite (check_envelope_ok _ _ Hbody Hstatus).
    unfold bind at 1; unfold filter_response, bind, read, lift, ret.
    destruct (isJson (get response "body")) eqn:Hjson.
    - destruct (Hparse eq_refl) as [parsed ->]; cbn [fst snd this].
      rewrite Hrole, Hkey, orb_true_r; cbn [andb]; rewrite Hres.
      eexists; reflexivity.
    - cbn [fst snd this]; rewrite Hrole, Hkey, orb_true_r; cbn [andb]; rewrite Hres.
      eexists; reflexivity. }
  destruct Htry as [s3 Htry].
  rewrite (invoke_caught _ _ _ _ _ _ Htry eq_refl); apply delivered_deliver.
Qed.

(** X15: parsing the body touches no other property of the event, and
    leaves the event alone when the body is not JSON text. *)
Theorem parse_body_keeps (ev ev1 : value) :
  parse_body ev = Normal ev1 ->
  (forall k, k <> "body" -> get ev1 k = get ev k)
  /\ (isJson (get ev "body") = false -> ev1 = ev).
Proof.
  unfold parse_body, member, set.
  destruct ev as [| | b | n | str | props]; try discriminate;
    cbn [get]; destruct (isJson _) eqn:Hjson;
    try (destruct (JSON_parse _); discriminate);
    try (intros H; injection H as <-; split; [reflexivity | reflexivity]).
  - destruct (JSON_parse _) as [parsed | e]; [| discriminate].
    intros H; injection H as <-; split; [| discriminate].
    intros k Hk; cbn [get]; rewrite lookup_update_other by exact Hk; reflexivity.
Qed.

(** *** The pipeline with nothing switched on *)

Lemma route_off (paths path : value) (verb : string) (s : state) :
  orb (truthy (validateRequests (this s))) (truthy (validateResponses (this s)))
  = false ->
  route paths path verb s = (Normal tt, s).
Proof. intros H; unfold route, bind, read; rewrite H; reflexivity. Qed.

Lemma sanitize_off (path : value) (s : state) :
  truthy (validateRequests (this s)) = false ->
  sanitize path s = (Normal tt, s).
Proof. intros H; unfold sanitize, bind, read; rewrite H; reflexivity. Qed.

Lemma transform_request_none (body pathParameters queryStringParameters : value)
  (s : state) :
  requestBodyTransformer (this s) = None /\
  requestPathTransformer (this s) = None /\
  requestQueryTransformer (this s) = None ->
  transform_request body pathParameters queryStringParameters s = (Normal tt, s).
Proof.
  intros (Hb & Hp & Hq); unfold transform_request, bind, read.
  rewrite Hb, Hp, Hq; reflexivity.
Qed.

Lemma transform_response_default (response statusCode message : value) (s : state) :
  lt statusCode 300 = true /\ responseSuccessTransformer (this s) = None ->
  transform_response response statusCode message s
  = (Normal (_constructDefaultResponse response statusCode), s).
Proof.
  intros [Hlt Hnone]; unfold transform_response, bind, read.
  rewrite Hlt, Hnone; reflexivity.
Qed.

Lemma filter_response_off (path response statusCode : value) (s : state) :
  (isJson (get response "body") = true ->
   exists parsed, JSON_parse (get response "body") = Normal parsed) /\
  truthy (validateResponses (this s)) = false /\
  truthy (filterByRole (this s)) = false ->
  filter_response path response statusCode s = (Normal response, s).
Proof.
  intros (Hjson & Hresp & Hrole); unfold filter_response, bind, lift, read, ret.
  destruct (isJson (get response "body")).
  - destruct (Hjson eq_refl) as [parsed ->]; cbn [fst snd].
    rewrite Hresp, Hrole; reflexivity.
  - cbn [fst snd]; rewrite Hresp, Hrole; reflexivity.
Qed.

(** X16: on an instance with no validation, no role filter and no
    transformer, a handler that answers with a status code below 300 has
    its answer handed over in the default envelope (the payload
    serialized when it is JSON, with the handler's status code); the
    handler is the only call, it receives the parsed event, and the event
    it leaves is the one kept on the instance. *)
Theorem plain_invocation (o : validator) (ev context : value) (callback : bool)
  (ev1 paths : value) (httpMethod : string) (lambdaResponse : list value) :
  truthy (validateRequests o) = false ->
  truthy (validateResponses o) = false ->
  truthy (filterByRole o) = false ->
  requestBodyTransformer o = None ->
  requestPathTransformer o = None ->
  requestQueryTransformer o = None ->
  responseSuccessTransformer o = None ->
  parse_body ev = Normal ev1 ->
  member (apiSpec o) "paths" = Normal paths ->
  get ev1 "httpMethod" = VStr httpMethod ->
  snd (lambdaBody o ev1 context) = Normal lambdaResponse ->
  lt (nth 1 lambdaResponse VUndefined) 300 = true ->
  let envelope :=
    _constructDefaultResponse (nth 0 lambdaResponse VUndefined)
                              (nth 1 lambdaResponse VUndefined) in
  (isJson (get envelope "body") = true ->
   exists parsed, JSON_parse (get envelope "body") = Normal parsed) ->
  let r := invoke o ev context callback in
  delivered callback r = Some envelope
  /\ calls (snd r)
     = CallLambdaBody ev1 context :: (if callback then [CallCallback envelope] else [])
  /\ event (this (snd r)) = fst (lambdaBody o ev1 context).
Proof.
  intros Hreq Hresp Hrole Hbt Hpt Hqt Hst Hparse Hpaths Hmethod Hhandler Hlt
    envelope Hjson r.
  assert (Htry : try_block ev context callback (mkState o [])
    = deliver callback envelope
        (mkState (set_event (fst (lambdaBody o ev1 context)) o)
                 [CallLambdaBody ev1 context])).
  { unfold try_block, request_stage, handler_stage, call_handler, response_stage.
    unfold bind, lift, write, read, emit, ret.
    rewrite Hparse; cbn [this calls fst snd apiSpec set_event].
    rewrite Hpaths, Hmethod; cbn [toLowerCase].
    rewrite route_off by (cbn [this validateRequests validateResponses set_event];
                          rewrite Hreq, Hresp; reflexivity).
    rewrite sanitize_off by (cbn [this validateRequests set_event]; exact Hreq).
    rewrite transform_request_none by (cbn; auto).
    cbn [this calls fst snd lambdaBody event set_event app].
    rewrite Hhandler.
    rewrite transform_response_default
      by (cbn [this responseSuccessTransformer set_event]; auto).
    cbn [fst snd]; fold envelope.
    rewrite check_envelope_ok by (apply has_field_lookup; discriminate).
    rewrite filter_response_off
      by (cbn [this validateResponses filterByRole set_event];
          try (split; [exact Hjson | split; assumption])).
    reflexivity. }
  assert (Hrun : r = deliver callback envelope
                       (mkState (set_event (fst (lambdaBody o ev1 context)) o)
                                [CallLambdaBody ev1 context])).
  { subst r; unfold invoke, install, try_catch; rewrite Htry, deliver_run;
      reflexivity. }
  rewrite Hrun; split; [apply delivered_deliver |].
  rewrite deliver_run; destruct callback; split; reflexivity.
Qed.

(** *** What a successful sanitization leaves on the event *)

Lemma lookup_assign (k : string) (source target : list (string * value)) :
  NoDup (map fst source) ->
  lookup k (fold_left (fun acc kv => update (fst kv) (snd kv) acc) source target)
  = match lookup k source with
    | Some v => Some v
    | None => lookup k target
    end.
Proof.
  revert target; induction source as [| [k0 v0] rest IH]; intros target Hnodup;
    [reflexivity |].
  inversion Hnodup as [| x l Hnotin Hrest]; subst.
  cbn [fold_left fst snd lookup]; rewrite (IH _ Hrest).
  destruct (String.eqb_spec k k0) as [-> | Hk].
  - assert (Hnone : lookup k0 rest = None).
    { clear - Hnotin; induction rest as [| [k1 v1] rest IH]; [reflexivity |].
      simpl in *; destruct (String.eqb_spec k0 k1) as [-> | _].
      - exfalso; apply Hnotin; left; reflexivity.
      - apply IH; intros H; apply Hnotin; right; exact H. }
    rewrite Hnone; apply lookup_update_same.
  - destruct (lookup k rest); [reflexivity |].
    apply lookup_update_other; exact Hk.
Qed.

Lemma validateRequests_accepted (o : validator) (log : list call)
  (path schema : value) (a sh : list (string * value)) (sanitized : request) :
  truthy schema = true ->
  nullish (event o) = false ->
  AJVoptions o = VObj a ->
  request_check (apiSpec o)
    (VObj (update "removeAdditional" (removeAdditionalRequestProps o) a))
    schema path (prepared_request (event o)) = inr sanitized ->
  headers sanitized = VObj sh ->
  exists fh,
    restore_cases
      (keys (js_or (get (prepared_event (event o)) "headers") (VObj []))) (VObj sh)
    = Normal (VObj fh) /\
    _validateRequests path schema (mkState o log)
    = (Normal (VObj [("body", body sanitized);
                     ("queryStringParams", query sanitized);
                     ("headers", VObj fh);
                     ("pathParameters", params sanitized)]),
       mkState
         (set_event (prepared_event (event o))
            (set_AJVoptions
               (VObj (update "removeAdditional" (removeAdditionalRequestProps o) a))
               o))
         (log ++ [CallRequestValidator path (prepared_request (event o))])).
Proof.
  intros Hschema Hev Hopts Hcheck Hsh.
  destruct (restore_cases_get
              (keys (js_or (get (prepared_event (event o)) "headers") (VObj []))) sh)
    as (fh & Hfh & _).
  exists fh; split; [exact Hfh |].
  unfold _validateRequests, bind, read, lift, write, emit; rewrite Hschema; simpl.
  rewrite Hopts; simpl.
  rewrite !(member_not_nullish _ _ Hev); simpl.
  unfold RequestValidator_validate.
  fold (prepared_request (event o)); rewrite Hcheck.
  unfold prepared_event in *; rewrite Hsh.
  destruct (truthy (get (event o) "headers")) eqn:Hh;
    unfold js_or in *; rewrite ?Hh in *; rewrite Hfh; reflexivity.
Qed.

(** X17: after a request that the validator accepts, for an event whose
    headers are an object (with no name that is, up to case, a name that
    objects inherit).  The object that [_validateRequests] returns has the
    names [body], [queryStringParams], [headers] and [pathParameters], so
    [Object.assign] writes the sanitized query to the event under
    [queryStringParams], not under [queryStringParameters].  The event
    then carries the sanitized body, query and path parameters under
    these names; under a lower-case name, its headers carry what the
    validator left there (the loop of lines 191-193 writes a lower-case
    name only with its own value); and every property of the event that
    the validator was not handed, any name but these and
    [queryStringParameters], is as it was. *)
Theorem sanitize_assigns (o : validator) (log : list call) (path : value)
  (fields a h sh : list (string * value)) (sanitized : request) :
  truthy (validateRequests o) = true ->
  truthy (config o) = true ->
  event o = VObj fields ->
  get (event o) "headers" = VObj h ->
  Forall (fun kv => own_name (lower (fst kv)) = true) h ->
  AJVoptions o = VObj a ->
  request_check (apiSpec o)
    (VObj (update "removeAdditional" (removeAdditionalRequestProps o) a))
    (config o) path (prepared_request (event o)) = inr sanitized ->
  headers sanitized = VObj sh ->
  let r := sanitize path (mkState o log) in
  let ev' := event (this (snd r)) in
  fst r = Normal tt
  /\ (exists filtered,
        fst (_validateRequests path (config o) (mkState o log)) = Normal filtered
        /\ keys filtered = sanitized_names)
  /\ get ev' "body" = body sanitized
  /\ get ev' "queryStringParams" = query sanitized
  /\ get ev' "pathParameters" = params sanitized
  /\ (forall K, lower K = K -> own_name K = true ->
                get (get ev' "headers") K = get (VObj sh) K)
  /\ (forall k, ~ In k sanitized_names -> k <> "queryStringParameters" ->
                get ev' k = get (event o) k).
Proof.
  intros Hflag Hschema Hev Hh _ Hopts Hcheck Hsh r ev'.
  assert (Hnn : nullish (event o) = false) by (rewrite Hev; reflexivity).
  assert (Hprepared : prepared_event (event o)
                      = put (event o) "headers" (lower_copies (VObj h))).
  { unfold prepared_event; rewrite Hh; reflexivity. }
  destruct (validateRequests_accepted o log path (config o) a sh sanitized
              Hschema Hnn Hopts Hcheck Hsh) as (fh & Hfh & Hrun).
  assert (Hget : forall K, lower K = K -> get (VObj fh) K = get (VObj sh) K).
  { intros K HK.
    destruct (restore_cases_get
                (keys (js_or (get (prepared_event (event o)) "headers") (VObj [])))
                sh) as (fh' & Hfh' & Hget).
    rewrite Hfh in Hfh'; injection Hfh' as ->.
    rewrite Hget, HK; destruct (andb _ _); reflexivity. }
  assert (Hprep : exists fields', prepared_event (event o) = VObj fields'
                    /\ forall k, k <> "headers" ->
                                 lookup k fields' = lookup k fields).
  { rewrite Hprepared, Hev; cbn [put]; eexists; split; [reflexivity |].
    intros k Hk; apply lookup_update_other; exact Hk. }
  destruct Hprep as (fields' & Hprep & Hframe).
  assert (Hr : r = (Normal tt,
                    mkState
                      (set_event
                         (assign (VObj fields')
                            (VObj [("body", body sanitized);
                                   ("queryStringParams", query sanitized);
                                   ("headers", VObj fh);
                                   ("pathParameters", params sanitized)]))
                         (set_event (VObj fields')
                            (set_AJVoptions
                               (VObj (update "removeAdditional"
                                        (removeAdditionalRequestProps o) a)) o)))
                      (log ++ [CallRequestValidator path (prepared_request (event o))]))).
  { subst r; unfold sanitize.
    unfold bind at 1; unfold read at 1; cbn [this]; rewrite Hflag.
    unfold bind at 1; rewrite Hrun, Hprep.
    unfold bind, read, write; reflexivity. }
  assert (Hnodup : NoDup (map fst [("body", body sanitized);
                                   ("queryStringParams", query sanitized);
                                   ("headers", VObj fh);
                                   ("pathParameters", params sanitized)])).
  { repeat constructor; simpl; intuition discriminate. }
  assert (Hheaders : get ev' "headers" = VObj fh).
  { subst ev'; rewrite Hr; cbn [fst snd this event set_event assign get].
    rewrite (lookup_assign _ _ _ Hnodup); reflexivity. }
  split; [rewrite Hr; reflexivity |].
  split; [eexists; split; [rewrite Hrun; reflexivity | reflexivity] |].
  split; [subst ev'; rewrite Hr; cbn [fst snd this event set_event assign get];
          rewrite (lookup_assign _ _ _ Hnodup); reflexivity |].
  split; [subst ev'; rewrite Hr; cbn [fst snd this event set_event assign get];
          rewrite (lookup_assign _ _ _ Hnodup); reflexivity |].
  split; [subst ev'; rewrite Hr; cbn [fst snd this event set_event assign get];
          rewrite (lookup_assign _ _ _ Hnodup); reflexivity |].
  split; [intros K HK _; rewrite Hheaders; exact (Hget K HK) |].
  intros k Hk Hqs; subst ev'; rewrite Hr, Hev.
  cbn [fst snd this event set_event assign get].
  rewrite (lookup_assign _ _ _ Hnodup).
  unfold sanitized_names in Hk; cbn [lookup].
  destruct (String.eqb_spec k "body") as [-> | _];
    [exfalso; apply Hk; simpl; auto |].
  destruct (String.eqb_spec k "queryStringParams") as [-> | _];
    [exfalso; apply Hk; simpl; auto |].
  destruct (String.eqb_spec k "headers") as [-> | Hkh];
    [exfalso; apply Hk; simpl; auto |].
  destruct (String.eqb_spec k "pathParameters") as [-> | _];
    [exfalso; apply Hk; simpl; auto |].
  rewrite (Hframe k Hkh); reflexivity.
Qed.

(** *** Headers that are in lower case already *)

Lemma update_lookup (k : string) (v : value) (props : list (string * value)) :
  lookup k props = Some v -> update k v props = props.
Proof.
  induction props as [| [k0 v0] rest IH]; simpl; [discriminate |].
  destruct (String.eqb_spec k k0) as [-> | Hk].
  - intros H; injection H as ->; reflexivity.
  - intros H; rewrite (IH H); reflexivity.
Qed.

Lemma lookup_in_keys (k : string) (props : list (string * value)) :
  In k (map fst props) -> exists v, lookup k props = Some v.
Proof.
  induction props as [| [k0 v0] rest IH]; simpl; [intros [] |].
  destruct (String.eqb_spec k k0) as [-> | Hk]; [intros _; eexists; reflexivity |].
  intros [H | H]; [congruence | exact (IH H)].
Qed.

Lemma lower_copies_fixed (names : list string) (h : list (string * value)) :
  Forall (fun k => lower k = k /\ In k (map fst h)) names ->
  fold_left lower_copy names (VObj h) = VObj h.
Proof.
  induction 1 as [| k rest [Hlow Hin] _ IH]; [reflexivity |].
  cbn [fold_left]; unfold lower_copy at 2; unfold put; rewrite Hlow.
  destruct (lookup_in_keys _ _ Hin) as [v Hv].
  cbn [get]; rewrite Hv, (update_lookup _ _ _ Hv); exact IH.
Qed.

(** X18: when every header name of the event is in lower case already,
    the header loop of the sanitizer changes nothing: the event is left
    as it is and the validator receives the headers as submitted. *)
Theorem lower_case_headers_untouched (ev : value) (h : list (string * value)) :
  get ev "headers" = VObj h ->
  lower_case_names h ->
  prepared_event ev = ev /\ headers (prepared_request ev) = VObj h.
Proof.
  intros Hh Hlow.
  assert (Hfix : lower_copies (VObj h) = VObj h).
  { unfold lower_copies; cbn [keys]; apply lower_copies_fixed.
    unfold lower_case_names in Hlow; clear Hh.
    assert (Hall : forall l, incl l h ->
              Forall (fun k => lower k = k /\ In k (map fst h)) (map fst l)).
    { induction l as [| kv l IH]; intros Hincl; [constructor |].
      cbn [map]; constructor.
      - split; [exact (proj1 (Forall_forall _ _) Hlow kv (Hincl kv (or_introl eq_refl)))
               | apply in_map, Hincl; left; reflexivity].
      - apply IH; intros x Hx; apply Hincl; right; exact Hx. }
    apply Hall, incl_refl. }
  unfold prepared_event, prepared_request; cbn [headers].
  rewrite Hh; unfold js_or; cbn [truthy]; rewrite Hfix; split; [| reflexivity].
  destruct ev as [| | b | n | str | fields]; try discriminate Hh.
  cbn [put get] in *.
  destruct (lookup "headers" fields) as [v |] eqn:Hl; [| discriminate Hh].
  subst v; rewrite (update_lookup _ _ _ Hl); reflexivity.
Qed.

(** *** One invocation after another *)

Lemma update_update (k : string) (v x : value) (props : list (string * value)) :
  update k v (update k x props) = update k v props.
Proof.
  induction props as [| [k0 v0] rest IH]; simpl.
  - rewrite String.eqb_refl; reflexivity.
  - destruct (String.eqb_spec k k0) as [-> | Hk]; simpl.
    + rewrite String.eqb_refl; reflexivity.
    + destruct (String.eqb_spec k k0); [contradiction | rewrite IH; reflexivity].
Qed.

Lemma options_alike_set (a a' opts : value) (v : value) :
  options_alike a a' ->
  set a' "removeAdditional" v = Normal opts ->
  set a "removeAdditional" v = Normal opts /\ options_alike a opts.
Proof.
  intros [-> | (props & x & -> & ->)] Hset.
  - split; [exact Hset |].
    destruct a; simpl in Hset; try discriminate; injection Hset as <-.
    right; eexists _, _; split; reflexivity.
  - simpl in Hset; injection Hset as <-; rewrite update_update; split.
    + reflexivity.
    + right; eexists _, _; split; reflexivity.
Qed.

Lemma options_alike_set_throw (a a' : value) (v e : value) :
  options_alike a a' ->
  set a' "removeAdditional" v = Throw e ->
  set a "removeAdditional" v = Throw e.
Proof.
  intros [-> | (props & x & -> & ->)] Hset; [exact Hset | discriminate Hset].
Qed.

Lemma left_by_refl (o : validator) : left_by o o.
Proof.
  exists (event o), (config o), (AJVoptions o); split; [| split].
  - destruct o; reflexivity.
  - left; reflexivity.
  - left; reflexivity.
Qed.

Lemma left_by_set_event (o o' : validator) (v : value) :
  left_by o o' -> left_by o (set_event v o').
Proof.
  intros (e & c & a' & -> & Ha & Hc); exists v, c, a'; split; [reflexivity |].
  split; assumption.
Qed.

Lemma left_by_flags (o o' : validator) :
  left_by o o' ->
  validateRequests o' = validateRequests o
  /\ validateResponses o' = validateResponses o.
Proof. intros (e & c & a' & -> & _); split; reflexivity. Qed.

Lemma left_by_set_config (o o' : validator) (v : value) :
  orb (truthy (validateRequests o)) (truthy (validateResponses o)) = true ->
  left_by o o' -> left_by o (set_config v o').
Proof.
  intros Hflags (e & c & a' & -> & Ha & _); exists e, v, a'.
  split; [reflexivity | split; [exact Ha | right; exact Hflags]].
Qed.

Lemma left_by_set_options (o o' : validator) (v opts : value) :
  left_by o o' ->
  set (AJVoptions o') "removeAdditional" v = Normal opts ->
  left_by o (set_AJVoptions opts o').
Proof.
  intros (e & c & a' & -> & Ha & Hc) Hset; cbn in Hset.
  exists e, c, opts; split; [reflexivity |].
  split; [exact (proj2 (options_alike_set _ _ _ _ Ha Hset)) | exact Hc].
Qed.

Lemma left_by_route (o : validator) (paths path : value) (verb : string) :
  guarded (left_by o) no_call (route paths path verb).
Proof.
  unfold route; apply guarded_read; intros o1 H1.
  destruct (orb (truthy (validateRequests o1)) (truthy (validateResponses o1)))
    eqn:Hflags; [| apply guarded_ret].
  destruct (left_by_flags _ _ H1) as [Hr Hs]; rewrite Hr, Hs in Hflags.
  apply guarded_bind; [apply guarded_lift | intros operation].
  apply guarded_write; intros o2 H2; apply left_by_set_config; assumption.
Qed.

Lemma left_by_options {A : Type} (o : validator) (v : validator -> value)
  (k : validator -> value -> M A) :
  (forall o1 opts, guarded (left_by o) no_call (k o1 opts)) ->
  guarded (left_by o) no_call
    (o1 <- read ;;
     opts <- lift (set (AJVoptions o1) "removeAdditional" (v o1)) ;;
     write (set_AJVoptions opts) ;;
     k o1 opts).
Proof.
  intros Hk s Hs; unfold bind, read, lift, write; cbn [fst snd this calls].
  destruct (set (AJVoptions (this s)) "removeAdditional" (v (this s)))
    as [opts | e] eqn:Hset; cbn [fst snd].
  - apply (Hk (this s) opts (mkState (set_AJVoptions opts (this s)) (calls s))).
    exact (left_by_set_options _ _ _ _ Hs Hset).
  - split; [exact Hs | reflexivity].
Qed.

Ltac left_by_step :=
  first
    [ apply guarded_ret | apply guarded_throw | apply guarded_lift
    | apply left_by_route
    | apply guarded_write; intros ? HP; apply left_by_set_event; exact HP
    | apply guarded_emit; reflexivity
    | apply (left_by_options _ removeAdditionalRequestProps); intros ? ?
    | apply (left_by_options _ removeAdditionalResponseProps); intros ? ?
    | apply guarded_read; intros ? ?
    | apply guarded_bind; [| intros ?]
    | match goal with
      | |- guarded _ _ (match ?x with _ => _ end) => destruct x
      end ].

(** What any invocation leaves of the instance. *)
Lemma invoke_left_by (o : validator) (ev context : value) (callback : bool) :
  left_by o (this (snd (invoke o ev context callback))).
Proof.
  assert (Hg : guarded (left_by o) no_call (install ev context callback)).
  { unfold install, try_block, request_stage, handler_stage, response_stage,
      sanitize, transform_request, call_handler, transform_response,
      check_envelope, filter_response, catch_block, deliver,
      _validateRequests, _validateResponses.
    apply guarded_try_catch; [| intros e]; repeat left_by_step. }
  exact (proj1 (Hg (mkState o []) (left_by_refl o))).
Qed.

Lemma same_but_options_refl (o : validator) : same_but_options o o.
Proof.
  exists (AJVoptions o); split; [left; reflexivity | destruct o; reflexivity].
Qed.

Lemma alike_ret {A : Type} (a : A) : alike (ret a) (ret a).
Proof. intros s s' Hc Hs; split; [reflexivity | split; assumption]. Qed.

Lemma alike_throw {A : Type} (e : value) : alike (@throw A e) (@throw A e).
Proof. intros s s' Hc Hs; split; [reflexivity | split; assumption]. Qed.

Lemma alike_lift {A : Type} (c : completion A) : alike (lift c) (lift c).
Proof. intros s s' Hc Hs; split; [reflexivity | split; assumption]. Qed.

Lemma alike_emit (c : call) : alike (emit c) (emit c).
Proof.
  intros s s' Hc Hs; unfold emit; cbn [fst snd this calls].
  split; [reflexivity | split; [rewrite Hc; reflexivity | exact Hs]].
Qed.

Lemma alike_set_event (v : value) : alike (write (set_event v)) (write (set_event v)).
Proof.
  intros s s' Hc (a' & Ha & Heq); unfold write; cbn [fst snd this calls].
  split; [reflexivity | split; [exact Hc |]].
  exists a'; split; [exact Ha | rewrite Heq; reflexivity].
Qed.

Lemma alike_bind {A B : Type} (m m' : M A) (f f' : A -> M B) :
  alike m m' -> (forall a, alike (f a) (f' a)) -> alike (bind m f) (bind m' f').
Proof.
  intros Hm Hf s s' Hc Hs; unfold bind.
  destruct (Hm s s' Hc Hs) as (Hfst & Hcalls & Hthis).
  destruct (m s) as [[a | e] s1]; destruct (m' s') as [[a' | e'] s1'];
    cbn [fst snd] in *; try discriminate Hfst.
  - injection Hfst as ->; apply Hf; assumption.
  - injection Hfst as ->; split; [reflexivity | split; assumption].
Qed.

(** After [read], the two continuations run on instances that are alike. *)
Lemma alike_read {B : Type} (f f' : validator -> M B) :
  (forall o a', options_alike (AJVoptions o) a' ->
                alike (f o) (f' (set_AJVoptions a' o))) ->
  alike (bind read f) (bind read f').
Proof.
  intros Hf s s' Hc Hs; unfold bind, read; cbn [fst snd].
  destruct Hs as (a' & Ha & Heq).
  assert (H := Hf (this s) a' Ha s s' Hc (ex_intro _ a' (conj Ha Heq))).
  rewrite <- Heq in H; exact H.
Qed.

(** The write of [removeAdditional] brings the two objects together. *)
Lemma alike_options {A : Type} (a a' v : value) (k k' : value -> M A) :
  options_alike a a' ->
  (forall opts, alike (k opts) (k' opts)) ->
  alike (opts <- lift (set a "removeAdditional" v) ;;
         write (set_AJVoptions opts) ;; k opts)
        (opts <- lift (set a' "removeAdditional" v) ;;
         write (set_AJVoptions opts) ;; k' opts).
Proof.
  intros Ha Hk s s' Hc Hs; unfold bind, lift, write; cbn [fst snd this calls].
  destruct (set a' "removeAdditional" v) as [opts | e] eqn:Hset.
  - rewrite (proj1 (options_alike_set _ _ _ _ Ha Hset)).
    apply Hk; [exact Hc |]; cbn [this].
    destruct Hs as (a0 & _ & ->).
    exists opts; split; [left; reflexivity | reflexivity].
  - rewrite (options_alike_set_throw _ _ _ _ Ha Hset); cbn [fst snd].
    split; [reflexivity | split; assumption].
Qed.

Ltac alike_step :=
  first
    [ apply alike_ret | apply alike_throw | apply alike_lift | apply alike_emit
    | apply alike_set_event
    | apply alike_options; [assumption | intros ?]
    | apply alike_read; intros ? ? ?;
      cbn [apiSpec contentType validateSpec validateRequests validateResponses
             requestBodyTransformer requestPathTransformer requestQueryTransformer
             responseSuccessTransformer responseErrorTransformer
             removeAdditionalRequestProps removeAdditionalResponseProps
             roleAuthorizerKey filterByRole defaultRoleName AJVoptions config
             lambdaBody event set_AJVoptions]
    | apply alike_bind; [| intros ?]
    | match goal with
      | |- alike (match ?x with _ => _ end) (match ?x with _ => _ end) => destruct x
      end ].

Lemma alike_after_route (ev1 context : value) (callback : bool) :
  alike (after_route ev1 context callback) (after_route ev1 context callback).
Proof.
  unfold after_route, sanitize, transform_request, handler_stage, call_handler,
    transform_response, response_stage, check_envelope, filter_response, deliver,
    _validateRequests, _validateResponses.
  repeat alike_step.
Qed.

Lemma try_block_route (x : validator) (ev context : value) (callback : bool)
  (log : list call) :
  try_block ev context callback (mkState x log)
  = match parse_body ev with
    | Throw e => (Throw e, mkState x log)
    | Normal ev1 =>
        match member (apiSpec x) "paths" with
        | Throw e => (Throw e, mkState (set_event ev1 x) log)
        | Normal paths =>
            match toLowerCase (get ev1 "httpMethod") with
            | Throw e => (Throw e, mkState (set_event ev1 x) log)
            | Normal verb =>
                match route paths (get ev1 "path") verb
                        (mkState (set_event ev1 x) log) with
                | (Throw e, s1) => (Throw e, s1)
                | (Normal _, s1) => after_route ev1 context callback s1
                end
            end
        end
    end.
Proof.
  unfold try_block, request_stage, after_route, bind, lift, write, read, ret.
  destruct (parse_body ev) as [ev1 | e]; [| reflexivity].
  cbn [this calls apiSpec set_event].
  destruct (member (apiSpec x) "paths") as [paths | e]; [| reflexivity].
  destruct (toLowerCase (get ev1 "httpMethod")) as [verb | e]; [| reflexivity].
  destruct (route paths (get ev1 "path") verb (mkState (set_event ev1 x) log))
    as [[[] | e] s1]; [| reflexivity].
  destruct (sanitize (get ev1 "path") s1) as [[[] | e] s2]; [| reflexivity].
  destruct (transform_request _ _ _ s2) as [[[] | e] s3]; reflexivity.
Qed.

(** The catch block reads nothing of the instance. *)
Lemma catch_block_calls (callback : bool) (e : value) (s s' : state) :
  calls s' = calls s ->
  fst (catch_block callback e s') = fst (catch_block callback e s)
  /\ calls (snd (catch_block callback e s')) = calls (snd (catch_block callback e s)).
Proof.
  intros Hc; unfold catch_block, deliver, bind, lift, emit, ret.
  destruct (member e "message"); [| split; [reflexivity | exact Hc]].
  destruct (member e "statusCode"); [| split; [reflexivity | exact Hc]].
  destruct callback; cbn [fst snd calls this]; split; try reflexivity; congruence.
Qed.

(** X19: invocations on one instance, one after the other, do not
    interfere: on the instance that an earlier invocation has left, an
    invocation gives the same completion and makes the same calls, with
    the same arguments, as on the instance before that invocation. *)
Theorem invocations_do_not_interfere (o : validator)
  (ev0 context0 : value) (callback0 : bool)
  (ev context : value) (callback : bool) :
  let o' := this (snd (invoke o ev0 context0 callback0)) in
  fst (invoke o' ev context callback) = fst (invoke o ev context callback)
  /\ calls (snd (invoke o' ev context callback))
     = calls (snd (invoke o ev context callback)).
Proof.
  intros o'.
  destruct (invoke_left_by o ev0 context0 callback0) as (e0 & c0 & a' & Ho' & Ha & Hc0).
  fold o' in Ho'; clearbody o'; subst o'.
  unfold invoke, install, try_catch; rewrite !try_block_route.
  destruct (parse_body ev) as [ev1 | e]; [| apply catch_block_calls; reflexivity].
  cbn [apiSpec set_event set_config set_AJVoptions].
  destruct (member (apiSpec o) "paths") as [paths | e];
    [| apply catch_block_calls; reflexivity].
  destruct (toLowerCase (get ev1 "httpMethod")) as [verb | e];
    [| apply catch_block_calls; reflexivity].
  assert (Hroute :
    match route paths (get ev1 "path") verb
            (mkState (set_event ev1 (set_event e0 (set_config c0 (set_AJVoptions a' o)))) []),
          route paths (get ev1 "path") verb (mkState (set_event ev1 o) []) with
    | (Normal _, s1'), (Normal _, s1) =>
        calls s1' = calls s1 /\ same_but_options (this s1) (this s1')
    | (Throw e', s1'), (Throw e, s1) => e' = e /\ calls s1' = calls s1
    | _, _ => False
    end).
  { unfold route, bind, read, lift, write;
      cbn [this calls validateRequests validateResponses set_event set_config
             set_AJVoptions].
    destruct (orb (truthy (validateRequests o)) (truthy (validateResponses o)))
      eqn:Hflags.
    - destruct (resolve paths (get ev1 "path") verb) as [operation | e];
        cbn [this calls]; [| split; reflexivity].
      split; [reflexivity |]; exists a'; split; [exact Ha | reflexivity].
    - cbn [this calls]; split; [reflexivity |].
      destruct Hc0 as [-> | Hc0]; [| discriminate Hc0].
      exists a'; split; [exact Ha | reflexivity]. }
  destruct (route paths (get ev1 "path") verb
              (mkState (set_event ev1 (set_event e0 (set_config c0 (set_AJVoptions a' o)))) []))
    as [[[] | e'] s1'];
    destruct (route paths (get ev1 "path") verb (mkState (set_event ev1 o) []))
      as [[[] | e] s1]; try contradiction.
  - destruct Hroute as [Hcalls Hthis].
    destruct (alike_after_route ev1 context callback s1 s1' Hcalls Hthis)
      as (Hfst & Hlog & _).
    destruct (after_route ev1 context callback s1) as [[v | e] s2];
      destruct (after_route ev1 context callback s1') as [[v' | e'] s2'];
      cbn [fst snd] in *; try discriminate Hfst.
    + split; assumption.
    + injection Hfst as ->; apply catch_block_calls; exact Hlog.
  - destruct Hroute as [-> Hcalls]; apply catch_block_calls; exact Hcalls.
Qed.

End Properties.

(** ** The model on concrete requests *)

Lemma instance_constructed (t : Demo.texts) (check : request -> value + request)
  (validate byRole roleKey : value) (success : option successTransformer)
  (h : handler) :
  @constructor (Demo.engine t check) (Demo.params validate byRole roleKey success) h
  = Normal (Demo.instance validate byRole roleKey success h).
Proof. reflexivity. Qed.

(** C1, the claim as stated fails: a fault that carries the status code 0
    is handed over with the status code 500, where the claim keeps the
    fault's own status code whenever it has one. *)
Lemma falsy_status_code_is_replaced :
  let fault := VObj [("message", VStr "boom"); ("statusCode", VNum 0)] in
  let o := Demo.plain (Demo.failing_handler fault) in
  let r := @invoke Demo.accepting o (Demo.get_event "/pet/12") VUndefined false in
  fst (@try_block Demo.accepting (Demo.get_event "/pet/12") VUndefined false
         (mkState o [])) = Throw fault
  /\ delivered false r
     = Some (VObj [("body", Demo.stringify_value (VObj [("message", VStr "boom")]));
                   ("statusCode", VNum 500)])
  /\ delivered false r <> Some (@spec_error_envelope Demo.accepting fault).
Proof.
  split; [reflexivity | split; [reflexivity | discriminate]].
Qed.

(** The envelope of C1 on the fault of a handler that throws
    [{message: "boom", statusCode: 503}]. *)
Lemma install_catches_handler_fault :
  let fault := VObj [("message", VStr "boom"); ("statusCode", VNum 503)] in
  let o := Demo.plain (Demo.failing_handler fault) in
  delivered true
    (@invoke Demo.accepting o (Demo.get_event "/pet/12") VUndefined true)
  = Some (VObj [("body", Demo.stringify_value (VObj [("message", VStr "boom")]));
                ("statusCode", VNum 503)]).
Proof.
  intros fault o.
  refine (proj1 (proj2 (@install_catches Demo.accepting o (Demo.get_event "/pet/12")
                          VUndefined true fault
                          (snd (@try_block Demo.accepting (Demo.get_event "/pet/12")
                                  VUndefined true (mkState o [])))
                          _ _))).
  - reflexivity.
  - reflexivity.
Defined.

(** A thrown [undefined] leaves the handler as a fault. *)
Lemma undefined_fault_escapes :
  exists e,
    fst (@invoke Demo.accepting (Demo.plain (Demo.failing_handler VUndefined))
           (Demo.get_event "/pet/12") VUndefined false) = Throw e.
Proof. eexists; reflexivity. Qed.

(** C2, the claim as stated fails: with both validations left disabled
    (the default) the route is not resolved, and a path that no template
    matches reaches the handler, whose answer is handed over. *)
Lemma unresolved_path_reaches_handler :
  let o := Demo.plain Demo.ok_handler in
  let r := @invoke Demo.accepting o (Demo.get_event "/nope") VUndefined false in
  resolve Demo.paths (VStr "/nope") "get"
  = Throw (path_not_found (VStr "/nope") "get")
  /\ existsb is_handler_call (calls (snd r)) = true
  /\ delivered false r
     = Some (VObj [("body", Demo.stringify_value (VObj [("id", VNum 1)]));
                   ("statusCode", VNum 200)]).
Proof. split; [reflexivity | split; reflexivity]. Qed.

(** C2 as amended, on a validating instance and the path [/nope]. *)
Lemma route_not_found_nope :
  let o := Demo.validating Demo.ok_handler in
  let r := @invoke Demo.accepting o (Demo.get_event "/nope") VUndefined false in
  delivered false r
  = Some (VObj [("body",
                 Demo.stringify_value
                   (VObj [("message",
                           VStr "The path /nope could not be found with http method get in the API spec")]));
                ("statusCode", VNum 400)])
  /\ existsb is_handler_call (calls (snd r)) = false.
Proof.
  intros o r.
  refine (proj2 (@route_not_found Demo.accepting o (Demo.get_event "/nope")
                   VUndefined false (Demo.get_event "/nope") Demo.paths VUndefined
                   "GET" _ _ _ _ _ _ _ _ _ _)).
  - reflexivity.
  - reflexivity.
  - reflexivity.
  - reflexivity.
  - reflexivity.
  - reflexivity.
  - intros key [<- | [<- | []]]; reflexivity.
  - reflexivity.
  - reflexivity.
  - intros key [<- | [<- | []]] Htest; vm_compute in Htest; discriminate Htest.
Defined.

(** C3: the path [/pet/a_b] is resolved to the operation of the template
    [/pet/{id}], because the class written [A-z] in the pattern also
    holds the underscore; the pattern in the words of the specification
    (alphanumerics, hyphen, white space, plus) does not match the path. *)
Theorem underscore_matches_variable :
  template_test "/pet/{id}" "/pet/a_b" = true
  /\ spec_template_test "/pet/{id}" "/pet/a_b" = false
  /\ resolve Demo.paths (VStr "/pet/a_b") "get"
     = Normal (VObj [("operationId", VStr "getPet")]).
Proof. split; [reflexivity | split; reflexivity]. Qed.



(** C5: with role filtering enabled and the role key [role], an event
    whose claims hold no [role] gives the response validator the role
    [null] (the claim named [default] is read, finds nothing, and the
    parameter default of [_validateResponses] applies), where the
    specification names the default role name, the string [default]. *)
Theorem absent_claim_gives_no_role :
  let o := Demo.instance VUndefined (VBool true) (VStr "role") None Demo.ok_handler in
  let ev := Demo.get_event "/pet/12" in
  let r := @invoke Demo.accepting o ev VUndefined false in
  resolve_role ev (roleAuthorizerKey o) (defaultRoleName o) = Normal VUndefined
  /\ spec_role ev "role" (defaultRoleName o) = VStr "default"
  /\ calls (snd r)
     = [CallLambdaBody ev VUndefined;
        CallResponseValidator (VStr "/pet/12") (VObj [("id", VNum 1)]) (VObj [])
          (VNum 200) VNull].
Proof. split; [reflexivity | split; reflexivity]. Qed.

(** C6 on a handler that answers with the status code 404 and no error
    transformer: the fault carries the code and the message. *)
Lemma transform_response_404 :
  let s := mkState (Demo.plain Demo.not_found_handler) [] in
  @transform_response Demo.accepting (VObj []) (VNum 404) (VStr "no such pet") s
  = (Throw (ValidationError (VStr "no such pet") (VNum 404)), s)
  /\ get (ValidationError (VStr "no such pet") (VNum 404)) "statusCode" = VNum 404
  /\ get (ValidationError (VStr "no such pet") (VNum 404)) "message"
     = VStr "no such pet".
Proof.
  intros s.
  exact (proj2 (@transform_response_cases Demo.accepting (VObj []) (VNum 404)
                  (VStr "no such pet") s) eq_refl).
Defined.

(** C7 on a success transformer that returns an envelope with no body. *)
Lemma envelope_contract_bodyless :
  let o := Demo.instance VUndefined VUndefined VUndefined (Some Demo.bodyless)
             Demo.ok_handler in
  exists envelope,
    delivered false
      (@invoke Demo.accepting o (Demo.get_event "/pet/12") VUndefined false)
    = Some envelope
    /\ get envelope "statusCode" = VNum 500.
Proof.
  intros o.
  destruct (@envelope_contract Demo.accepting o (Demo.get_event "/pet/12")
              VUndefined false (VStr "/pet/12")
              (VObj [("statusCode", VNum 200)]) (VNum 200)
              (snd (@request_stage Demo.accepting (Demo.get_event "/pet/12")
                      (mkState o [])))
              (snd (@handler_stage Demo.accepting VUndefined
                      (snd (@request_stage Demo.accepting (Demo.get_event "/pet/12")
                              (mkState o [])))))
              eq_refl eq_refl)
    as (message & _ & Hdelivered & _).
  - left; intros (props & v & Heq & Hlookup).
    injection Heq as <-; discriminate Hlookup.
  - eexists; split; [exact Hdelivered | reflexivity].
Defined.

Lemma require_role_cases (v : value) :
  (forall r, match v with
             | VStr "admin" => inr r
             | _ => inl (VStr "x-role must be admin")
             end = @inr value request r)
  \/ (forall r : request,
        match v with
        | VStr "admin" => inr r
        | _ => inl (VStr "x-role must be admin")
        end = @inl value request (VStr "x-role must be admin")).
Proof.
  destruct v as [| | | | str |]; try (right; reflexivity).
  repeat match goal with
         | |- context [match ?c with Ascii _ _ _ _ _ _ _ _ => _ end] =>
             destruct c as [[] [] [] [] [] [] [] []]; try (right; reflexivity)
         | |- context [match ?x with EmptyString => _ | String _ _ => _ end] =>
             destruct x; try (right; reflexivity)
         end.
  left; reflexivity.
Qed.

Lemma require_role_reads_lower_case :
  @reads_lower_case_headers Demo.role_checking.
Proof.
  intros apiSpec AJVoptions schema path r1 r2 Hbody Hquery Hparams Hheaders; simpl.
  unfold Demo.require_role.
  rewrite (Hheaders "x-role" eq_refl).
  destruct (require_role_cases (get (headers r2) "x-role")) as [H | H];
    rewrite (H r1), (H r2); simpl; auto.
Qed.

(** C8, the claim as stated fails: the headers [X-Role: admin, x-role:
    guest] and [x-role: admin, X-ROLE: guest] differ only in the casing
    of their names, but the loop of lines 177-179 lets the name visited
    last win, so a validator that wants [x-role] to be [admin] is handed
    [admin] for the first request, which reaches the handler, and [guest]
    for the second, which is answered with the status code 400. *)
Lemma colliding_header_names_differ :
  let h1 := [("X-Role", VStr "admin"); ("x-role", VStr "guest")] in
  let h2 := [("x-role", VStr "admin"); ("X-ROLE", VStr "guest")] in
  let o := Demo.validating Demo.ok_handler in
  let r1 := @invoke Demo.role_checking o (Demo.headers_event "/pet/12" h1)
              VUndefined false in
  let r2 := @invoke Demo.role_checking o (Demo.headers_event "/pet/12" h2)
              VUndefined false in
  same_headers_up_to_case h1 h2
  /\ get (headers (prepared_request (Demo.headers_event "/pet/12" h1))) "x-role"
     = VStr "admin"
  /\ get (headers (prepared_request (Demo.headers_event "/pet/12" h2))) "x-role"
     = VStr "guest"
  /\ delivered false r1
     = Some (VObj [("body", Demo.stringify_value (VObj [("id", VNum 1)]));
                   ("statusCode", VNum 200)])
  /\ existsb is_handler_call (calls (snd r1)) = true
  /\ delivered false r2
     = Some (VObj [("body",
                    Demo.stringify_value
                      (VObj [("message", VStr "x-role must be admin")]));
                   ("statusCode", VNum 400)])
  /\ existsb is_handler_call (calls (snd r2)) = false.
Proof.
  split; [repeat constructor |].
  repeat split; reflexivity.
Qed.

(** C8 as amended, on the requests [X-Role: admin] and [x-role: admin]
    and a validator that wants [x-role] to be [admin]. *)
Lemma header_names_case_role :
  let o := set_event (Demo.get_event "/pet/12") (Demo.validating Demo.ok_handler) in
  let opts := VObj [("removeAdditional", VBool false)] in
  let schema := VObj [("operationId", VStr "getPet")] in
  get (headers (prepared_request (event o))) "x-role" = VStr "admin"
  /\ same_verdict
       (@request_check Demo.role_checking (apiSpec o) opts schema
          (VStr "/pet/12") (prepared_request (event o)))
       (@request_check Demo.role_checking (apiSpec o) opts schema
          (VStr "/pet/12") (prepared_request (Demo.get_event_lower "/pet/12")))
  /\ exists filtered,
       fst (@_validateRequests Demo.role_checking (VStr "/pet/12") schema
              (mkState o []))
       = Normal filtered
       /\ get (get filtered "headers") "X-Role" = VStr "admin".
Proof.
  intros o opts schema.
  destruct (@header_names_case Demo.role_checking o [] (VStr "/pet/12") schema
              (Demo.get_event_lower "/pet/12") []
              [("X-Role", VStr "admin")] [("x-role", VStr "admin")]
              require_role_reads_lower_case eq_refl eq_refl eq_refl eq_refl)
    as (Hlower & Hverdict & Hrestore).
  - repeat constructor.
  - repeat constructor; simpl; intuition discriminate.
  - repeat constructor.
  - reflexivity.
  - reflexivity.
  - reflexivity.
  - split; [exact (Hlower "X-Role" (VStr "admin") (or_introl eq_refl)) |].
    split; [exact Hverdict |].
    destruct (Hrestore (prepared_request (event o))
                [("X-Role", VStr "admin"); ("x-role", VStr "admin")]
                eq_refl eq_refl) as (fh & Hrun & Hget).
    eexists; split; [exact Hrun |].
    exact (Hget "X-Role" (or_introl eq_refl)).
Defined.

(** C9, the claim as stated fails: an invocation leaves its event in the
    field [event] of the instance and the resolved operation in the field
    [config]. *)
Lemma invocation_writes_instance :
  let o := Demo.validating Demo.ok_handler in
  let o' := this (snd (@invoke Demo.accepting o (Demo.get_event "/pet/12")
                         VUndefined false)) in
  event o = VUndefined
  /\ get (event o') "path" = VStr "/pet/12"
  /\ config o = VObj []
  /\ config o' = VObj [("operationId", VStr "getPet")]
  /\ o' <> o.
Proof.
  repeat split; intros H; apply (f_equal config) in H; discriminate H.
Qed.

(** C10, the claim as stated fails: a truthy option that is not a boolean
    is kept as it is, so the setting is not [true]. *)
Lemma validateSpec_keeps_truthy_value :
  let p := Params.mk Demo.petstore VUndefined (VNum 1) VUndefined VUndefined
             None None None None None
             VUndefined VUndefined VUndefined VUndefined VUndefined VUndefined in
  exists o,
    @constructor Demo.accepting p Demo.ok_handler = Normal o
    /\ validateSpec o = VNum 1
    /\ validateSpec o <> VBool true.
Proof.
  eexists; split; [reflexivity | split; [reflexivity | discriminate]].
Qed.

(** C10 as amended, on a configuration that sets [validateSpec] to
    [false]. *)
Lemma constructor_validateSpec_false :
  let p := Params.mk Demo.petstore VUndefined (VBool false) VUndefined VUndefined
             None None None None None
             VUndefined VUndefined VUndefined VUndefined VUndefined VUndefined in
  exists o,
    @constructor Demo.accepting p Demo.ok_handler = Normal o
    /\ validateSpec o = VBool true.
Proof.
  intros p; eexists; split; [reflexivity |].
  refine (proj1 (proj2 (proj2 (@constructor_validateSpec Demo.accepting p
                                 Demo.ok_handler _ eq_refl))) _).
  reflexivity.
Defined.

(** ** The further properties on concrete requests *)

(** X2 on a request that the handler answers. *)
Lemma callback_called_once_get_pet :
  List.length
    (filter is_callback
       (calls (snd (@invoke Demo.accepting (Demo.plain Demo.ok_handler)
                      (Demo.get_event "/pet/12") VUndefined true))))
  = 1%nat.
Proof.
  exact (proj1 (@callback_called_once Demo.accepting (Demo.plain Demo.ok_handler)
                  (Demo.get_event "/pet/12") VUndefined true VUndefined eq_refl)).
Defined.

(** X3 on the instance with every option left out. *)
Lemma request_validator_stays_off_plain :
  filter is_request_validation
    (calls (snd (@invoke Demo.accepting (Demo.plain Demo.ok_handler)
                   (Demo.get_event "/pet/12") VUndefined false)))
  = [].
Proof.
  exact (@request_validator_stays_off Demo.accepting (Demo.plain Demo.ok_handler)
           (Demo.get_event "/pet/12") VUndefined false eq_refl).
Defined.

(** X4 on an instance that validates requests only. *)
Lemma response_validator_stays_off_validating :
  filter is_response_validation
    (calls (snd (@invoke Demo.accepting (Demo.validating Demo.ok_handler)
                   (Demo.get_event "/pet/12") VUndefined false)))
  = [].
Proof.
  exact (@response_validator_stays_off Demo.accepting
           (Demo.validating Demo.ok_handler)
           (Demo.get_event "/pet/12") VUndefined false eq_refl eq_refl).
Defined.

(** X5 on a request that the validator rejects. *)
Lemma delivered_envelope_shape_rejected :
  exists envelope,
    delivered false
      (@invoke Demo.rejecting (Demo.validating Demo.ok_handler)
         (Demo.get_event "/pet/12") VUndefined false)
    = Some envelope
    /\ has_field envelope "body" /\ has_field envelope "statusCode".
Proof.
  refine (@delivered_envelope_shape Demo.rejecting (Demo.validating Demo.ok_handler)
            (Demo.get_event "/pet/12") VUndefined false _ _).
  reflexivity.
Defined.

(** X6 on a handler that throws [undefined]. *)
Lemma invocation_rejected_undefined :
  exists e,
    fst (@invoke Demo.accepting (Demo.plain (Demo.failing_handler VUndefined))
           (Demo.get_event "/pet/12") VUndefined false) = Throw e.
Proof.
  apply (proj2 (@invocation_rejected_iff Demo.accepting
                  (Demo.plain (Demo.failing_handler VUndefined))
                  (Demo.get_event "/pet/12") VUndefined false)).
  eexists _, _; split; reflexivity.
Defined.

(** X7 on a handler that throws the string [boom]. *)
Lemma thrown_primitive_envelope_boom :
  delivered false
    (@invoke Demo.accepting (Demo.plain (Demo.failing_handler (VStr "boom")))
       (Demo.get_event "/pet/12") VUndefined false)
  = Some (VObj [("body", Demo.stringify_value (VObj [("message", VUndefined)]));
                ("statusCode", VNum 500)]).
Proof.
  refine (@thrown_primitive_envelope Demo.accepting
            (Demo.plain (Demo.failing_handler (VStr "boom")))
            (Demo.get_event "/pet/12") VUndefined false (VStr "boom")
            (snd (@try_block Demo.accepting (Demo.get_event "/pet/12") VUndefined
                    false (mkState (Demo.plain (Demo.failing_handler (VStr "boom"))) [])))
            _ _ _).
  - reflexivity.
  - reflexivity.
  - intros props H; discriminate H.
Defined.

(** X8 on a path that is itself a key, listed after a template that
    matches it: the operation is the key's own. *)
Lemma resolve_selects_literal_key :
  truthy (VObj [("operationId", VStr "getMine")]) = true
  /\ ((truthy (get Demo.overlapping "/pet/mine") = true
       /\ VObj [("operationId", VStr "getMine")]
          = get (get Demo.overlapping "/pet/mine") "get")
      \/ (truthy (js_and (get Demo.overlapping "/pet/mine")
                         (get (get Demo.overlapping "/pet/mine") "get")) = false
          /\ exists before key after,
               keys Demo.overlapping = (before ++ key :: after)%list
               /\ template_test key "/pet/mine" = true
               /\ VObj [("operationId", VStr "getMine")]
                  = get (get Demo.overlapping key) "get"
               /\ forall k, In k before ->
                    template_test k "/pet/mine" = false
                    \/ truthy (get (get Demo.overlapping k) "get") = false)).
Proof.
  refine (resolve_selects Demo.overlapping (VStr "/pet/mine")
            (VObj [("operationId", VStr "getMine")]) "get" eq_refl eq_refl _
            eq_refl).
  intros key [<- | [<- | []]]; reflexivity.
Defined.

(** X9 on [/pet/{id}] and a path with a stage name in front. *)
Lemma template_test_ignores_prefix_stage :
  template_test "/pet/{id}" ("/prod" ++ "/pet/12") = true.
Proof.
  exact (template_test_ignores_prefix "/pet/{id}" "/pet/12" "/prod" eq_refl
           eq_refl).
Defined.

(** X10 on the value [a%20b]. *)
Lemma var_segment_within_one_segment_space :
  "a%20b" <> EmptyString /\ no_slash "a%20b" = true.
Proof.
  exact (@var_segment_within_one_segment "a%20b" eq_refl).
Defined.

(** X11 on [/pet/{id}] and [/pet/123]. *)
Lemma template_matches_instance_pet :
  template_test ("/pet/" ++ String "{" ("id" ++ String "}" ""))
                ("/pet/" ++ "123" ++ "") = true.
Proof.
  refine (template_matches_instance "/pet/" "id" "" "123" eq_refl eq_refl eq_refl _
            eq_refl).
  intros H; discriminate H.
Defined.

(** X12 on an event without [httpMethod]. *)
Lemma missing_method_faults_plain :
  exists message,
    delivered false
      (@invoke Demo.accepting (Demo.plain Demo.ok_handler) Demo.methodless_event
         VUndefined false)
    = Some (VObj [("body",
                   Demo.stringify_value (VObj [("message", VStr message)]));
                  ("statusCode", VNum 500)])
    /\ calls (snd (@invoke Demo.accepting (Demo.plain Demo.ok_handler)
                     Demo.methodless_event VUndefined false))
       = [].
Proof.
  refine (@missing_method_faults Demo.accepting (Demo.plain Demo.ok_handler)
            Demo.methodless_event VUndefined false Demo.methodless_event
            Demo.paths _ _ _).
  - reflexivity.
  - reflexivity.
  - intros httpMethod H; discriminate H.
Defined.

(** X13 on a specification without [paths]. *)
Lemma missing_paths_faults_pathless :
  exists message,
    delivered false
      (@invoke Demo.accepting
         (Demo.with_spec Demo.pathless (Demo.validating Demo.ok_handler))
         (Demo.get_event "/pet/12") VUndefined false)
    = Some (VObj [("body",
                   Demo.stringify_value (VObj [("message", VStr message)]));
                  ("statusCode", VNum 500)])
    /\ calls (snd (@invoke Demo.accepting
                     (Demo.with_spec Demo.pathless (Demo.validating Demo.ok_handler))
                     (Demo.get_event "/pet/12") VUndefined false))
       = [].
Proof.
  refine (@missing_paths_faults Demo.accepting
            (Demo.with_spec Demo.pathless (Demo.validating Demo.ok_handler))
            (Demo.get_event "/pet/12") VUndefined false (Demo.get_event "/pet/12")
            VUndefined "GET" _ _ _ _ _); reflexivity.
Defined.

(** X14 on an event without caller identity. *)
Lemma role_without_identity_faults_bare :
  exists message,
    delivered false
      (@invoke Demo.accepting (Demo.role_filtering Demo.ok_handler)
         (Demo.bare_event "/pet/12") VUndefined false)
    = Some (VObj [("body",
                   Demo.stringify_value (VObj [("message", VStr message)]));
                  ("statusCode", VNum 500)]).
Proof.
  refine (@role_without_identity_faults Demo.accepting
            (Demo.role_filtering Demo.ok_handler) (Demo.bare_event "/pet/12")
            VUndefined false (VStr "/pet/12")
            (VObj [("body", Demo.stringify_value (VObj [("id", VNum 1)]));
                   ("statusCode", VNum 200)])
            (VNum 200)
            (snd (@request_stage Demo.accepting (Demo.bare_event "/pet/12")
                    (mkState (Demo.role_filtering Demo.ok_handler) [])))
            (snd (@handler_stage Demo.accepting VUndefined
                    (snd (@request_stage Demo.accepting (Demo.bare_event "/pet/12")
                            (mkState (Demo.role_filtering Demo.ok_handler) [])))))
            eq_refl eq_refl _ _ _ eq_refl eq_refl eq_refl).
  - eexists _, _; split; reflexivity.
  - eexists _, _; split; reflexivity.
  - intros _; eexists; reflexivity.
Defined.

(** X15 on an event whose body is JSON text: the body is parsed, the
    path is kept. *)
Lemma parse_body_keeps_post :
  let ev1 := VObj [("body", VObj [("id", VNum 1)]);
                   ("httpMethod", VStr "POST");
                   ("path", VStr "/pet")] in
  @parse_body Demo.accepting Demo.post_event = Normal ev1
  /\ get ev1 "path" = get Demo.post_event "path".
Proof.
  intros ev1; split; [reflexivity |].
  refine (proj1 (@parse_body_keeps Demo.accepting Demo.post_event ev1 eq_refl)
            "path" _).
  intros H; discriminate H.
Defined.

(** X16 on the petstore with every option left out. *)
Lemma plain_invocation_get_pet :
  delivered true
    (@invoke Demo.accepting (Demo.plain Demo.ok_handler) (Demo.get_event "/pet/12")
       VUndefined true)
  = Some (VObj [("body", Demo.stringify_value (VObj [("id", VNum 1)]));
                ("statusCode", VNum 200)]).
Proof.
  refine (proj1 (@plain_invocation Demo.accepting (Demo.plain Demo.ok_handler)
                   (Demo.get_event "/pet/12") VUndefined true
                   (Demo.get_event "/pet/12") Demo.paths "GET"
                   [VObj [("id", VNum 1)]; VNum 200]
                   eq_refl eq_refl eq_refl eq_refl eq_refl eq_refl eq_refl
                   eq_refl eq_refl eq_refl eq_refl eq_refl _)).
  intros _; eexists; reflexivity.
Defined.

(** X17 on a request that the validator accepts as it is: the query goes
    under [queryStringParams], the lower-case header is the validator's,
    the path is as submitted. *)
Lemma sanitize_assigns_get_pet :
  let o := set_event (Demo.get_event "/pet/12")
             (set_config (VObj [("operationId", VStr "getPet")])
                (Demo.validating Demo.ok_handler)) in
  let ev' := event (this (snd (@sanitize Demo.accepting (VStr "/pet/12")
                                 (mkState o [])))) in
  get ev' "queryStringParams" = VObj []
  /\ get (get ev' "headers") "x-role" = VStr "admin"
  /\ get ev' "path" = VStr "/pet/12".
Proof.
  intros o ev'.
  assert (Hown : Forall (fun kv : string * value => own_name (lower (fst kv)) = true)
                   [("X-Role", VStr "admin")]) by (repeat constructor).
  destruct (@sanitize_assigns Demo.accepting o [] (VStr "/pet/12")
              [("httpMethod", VStr "GET");
               ("path", VStr "/pet/12");
               ("headers", VObj [("X-Role", VStr "admin")]);
               ("requestContext",
                VObj [("authorizer", VObj [("claims", VObj [])])])]
              [] [("X-Role", VStr "admin")]
              [("X-Role", VStr "admin"); ("x-role", VStr "admin")]
              (prepared_request (Demo.get_event "/pet/12"))
              eq_refl eq_refl eq_refl eq_refl Hown eq_refl eq_refl eq_refl)
    as (_ & _ & _ & Hquery & _ & Hlower & Hframe).
  split; [exact Hquery | split; [exact (Hlower "x-role" eq_refl eq_refl) |]].
  refine (Hframe "path" _ _).
  - intros [H | [H | [H | [H | []]]]]; discriminate H.
  - intros H; discriminate H.
Defined.

(** X18 on the request [x-role: admin]. *)
Lemma lower_case_headers_untouched_role :
  prepared_event (Demo.get_event_lower "/pet/12") = Demo.get_event_lower "/pet/12"
  /\ headers (prepared_request (Demo.get_event_lower "/pet/12"))
     = VObj [("x-role", VStr "admin")].
Proof.
  refine (lower_case_headers_untouched (Demo.get_event_lower "/pet/12")
            [("x-role", VStr "admin")] eq_refl _).
  repeat constructor.
Defined.

(** X20 on a handler that answers 404. *)
Lemma handler_error_status_404 :
  delivered false
    (@invoke Demo.accepting (Demo.plain Demo.not_found_handler)
       (Demo.get_event "/pet/12") VUndefined false)
  = Some (VObj [("body",
                 Demo.stringify_value (VObj [("message", VStr "no such pet")]));
                ("statusCode", VNum 404)]).
Proof.
  refine (@handler_error_status Demo.accepting (Demo.plain Demo.not_found_handler)
            (Demo.get_event "/pet/12") VUndefined false (VStr "/pet/12")
            (snd (@request_stage Demo.accepting (Demo.get_event "/pet/12")
                    (mkState (Demo.plain Demo.not_found_handler) [])))
            [VObj []; VNum 404; VStr "no such pet"] 404
            eq_refl eq_refl eq_refl _ eq_refl).
  lia.
Defined.

(** X21 on a caller whose claims give the role [admin]. *)
Lemma resolve_role_claims_admin :
  resolve_role (Demo.admin_event "/pet/12") (VStr "role") (VStr "default")
  = Normal (VStr "admin").
Proof.
  exact (resolve_role_claims (Demo.admin_event "/pet/12")
           (VObj [("authorizer", VObj [("claims", VObj [("role", VStr "admin")])])])
           (VObj [("claims", VObj [("role", VStr "admin")])])
           (VStr "default") [("role", VStr "admin")] "role"
           eq_refl eq_refl eq_refl eq_refl eq_refl eq_refl eq_refl eq_refl eq_refl
           eq_refl).
Defined.
